(** * pyaardvark: configuration state machine, shadow cache and device
      acquisition of [pyaardvark/aardvark.py]

    The driver is embedded as a state-and-exception monad over
    - the attributes of the one [Aardvark] object in play ([self]),
    - the state of the vendor binding [aardvark_py] (imported as [api] by the
      source), which is external to the repository and therefore abstract,
    - the chronological list of the binding calls issued so far.

    The constants of [pyaardvark/constants.py] are parameters ([Constants]);
    the few facts the proofs need about them are collected in
    [ConstantsOk]. *)

From Stdlib Require Import ZArith List String Ascii Bool Lia QArith.
From Stdlib Require Import Decimal DecimalString DecimalN.
From Stdlib Require Strings.Byte.
Import ListNotations.

#[local] Open Scope string_scope.
#[local] Open Scope list_scope.
#[local] Open Scope Z_scope.

(* ===================================================================== *)
(** * Python primitives used by the driver *)
(* ===================================================================== *)

Module Py.

(** [sum(l)] on a list of ints: a left fold starting from 0. *)
Definition sum (l : list Z) : Z := fold_left Z.add l 0.

(** [x in l] on a list of ints. *)
Definition contains (x : Z) (l : list Z) : bool := existsb (Z.eqb x) l.

(** [l.remove(x)]: drops the first occurrence, [ValueError] ([None]) when
    there is none. *)
Fixpoint remove (x : Z) (l : list Z) : option (list Z) :=
  match l with
  | [] => None
  | y :: l' =>
      if Z.eqb y x then Some l'
      else match remove x l' with
           | Some r => Some (y :: r)
           | None => None
           end
  end.

(** [a / b] of Python 3 on two ints, for a positive literal [b]: true
    division.  The quotient is kept as the exact rational; the binary64
    value Python computes for an [a] below [2^32] and [b = 1000000] is
    within [2^-40] of it, and a quotient that is not an integer is at least
    [10^-6] away from the next one, so truncating either gives the same
    integer. *)
Definition truediv (a : Z) (b : positive) : Q := Qmake a b.

(** What [%d] does to a non-integer argument: [int(x)], truncation towards
    zero. *)
Definition trunc (x : Q) : Z := Z.quot (Qnum x) (Zpos (Qden x)).

(** Decimal digits of a natural number, as [str(n)]. *)
Definition decimal (n : N) : string := NilEmpty.string_of_uint (N.to_uint n).

Fixpoint zeros (k : nat) : string :=
  match k with
  | O => EmptyString
  | S k' => String "0" (zeros k')
  end.

(** Left padding with ['0'] up to [width] characters. *)
Definition zfill (width : nat) (s : string) : string :=
  (zeros (width - String.length s) ++ s)%string.

(** ['%0<width>d' % n]; the sign counts in the width.  ['%d'] is width 0. *)
Definition fmt_0d (width : nat) (n : Z) : string :=
  match n with
  | Zneg p => String "-" (zfill (width - 1) (decimal (Npos p)))
  | _ => zfill width (decimal (Z.to_N n))
  end.

End Py.

(* ===================================================================== *)
(** * Constants of [pyaardvark.constants] *)
(* ===================================================================== *)

(** The module [constants.py] is imported with [from .constants import *];
    its values are parameters of the development. *)
Class Constants := {
  CONFIG_GPIO_ONLY : Z;
  CONFIG_SPI_GPIO : Z;
  CONFIG_GPIO_I2C : Z;
  CONFIG_SPI_I2C : Z;
  CONFIG_QUERY : Z;
  GPIO_SCL : Z;
  GPIO_SDA : Z;
  GPIO_MISO : Z;
  GPIO_SCK : Z;
  GPIO_MOSI : Z;
  GPIO_SS : Z;
  PORT_NOT_FREE : Z;
  ERR_UNABLE_TO_OPEN : Z;
  ERR_INCOMPATIBLE_DEVICE : Z;
  ERR_INCOMPATIBLE_LIBRARY : Z
}.

(** The six pins, in the order [gpio_poll] lists them. *)
Definition gpios `{Constants} : list Z :=
  [GPIO_MISO; GPIO_MOSI; GPIO_SCK; GPIO_SCL; GPIO_SDA; GPIO_SS].

(** A single-bit mask. *)
Definition single_bit (p : Z) : Prop := exists k, 0 <= k /\ p = 2 ^ k.

(** What the proofs rely on: the four configurations and the query sentinel
    are distinct, a configuration is a valid (non-negative) status, the pins
    are distinct single bits, the error codes are negative. *)
Record ConstantsOk `{Constants} : Prop := {
  config_distinct :
    NoDup [CONFIG_GPIO_ONLY; CONFIG_SPI_GPIO; CONFIG_GPIO_I2C;
           CONFIG_SPI_I2C; CONFIG_QUERY];
  config_nonneg :
    Forall (fun c => 0 <= c)
      [CONFIG_GPIO_ONLY; CONFIG_SPI_GPIO; CONFIG_GPIO_I2C; CONFIG_SPI_I2C];
  gpios_distinct : NoDup gpios;
  gpios_single_bit : Forall single_bit gpios;
  err_unable_to_open_neg : ERR_UNABLE_TO_OPEN < 0;
  err_incompatible_device_neg : ERR_INCOMPATIBLE_DEVICE < 0;
  err_incompatible_library_neg : ERR_INCOMPATIBLE_LIBRARY < 0
}.

(** The values of the vendor header, used for the concrete runs. *)
#[export] Instance aardvark_constants : Constants := {|
  CONFIG_GPIO_ONLY := 0;
  CONFIG_SPI_GPIO := 1;
  CONFIG_GPIO_I2C := 2;
  CONFIG_SPI_I2C := 3;
  CONFIG_QUERY := 128;
  GPIO_SCL := 1;
  GPIO_SDA := 2;
  GPIO_MISO := 4;
  GPIO_SCK := 8;
  GPIO_MOSI := 16;
  GPIO_SS := 32;
  PORT_NOT_FREE := 32768;
  ERR_UNABLE_TO_OPEN := -7;
  ERR_INCOMPATIBLE_DEVICE := -5;
  ERR_INCOMPATIBLE_LIBRARY := -4
|}.

(* ===================================================================== *)
(** * Pure module-level helpers *)
(* ===================================================================== *)

(** [_unique_id_str]: ['%04d-%06d' % (unique_id / 1000000,
    unique_id % 1000000)]. *)
Definition _unique_id_str (unique_id : Z) : string :=
  let id1 := Py.truediv unique_id 1000000 in
  let id2 := unique_id mod 1000000 in
  (Py.fmt_0d 4 (Py.trunc id1) ++ "-" ++ Py.fmt_0d 6 id2)%string.

(** [_to_version_str]: ['%d.%02d' % (v >> 8, v & 0xff)]. *)
Definition _to_version_str (v : Z) : string :=
  (Py.fmt_0d 0 (Z.shiftr v 8) ++ "." ++ Py.fmt_0d 2 (Z.land v 255))%string.

(** Reading a serial number back.  The source has no parser; the docstring of
    [Aardvark.unique_id] fixes the meaning ("the serial number you can find on
    the adapter without the dash") and the specification derives the string
    from [id // 1_000_000] and [id % 1_000_000]. *)
Module Serial.

Definition parse_decimal (s : string) : option Z :=
  match s with
  | EmptyString => None
  | _ => option_map (fun d => Z.of_N (N.of_uint d)) (NilEmpty.uint_of_string s)
  end.

(** No dash among the characters. *)
Fixpoint no_dash (s : string) : bool :=
  match s with
  | EmptyString => true
  | String c rest => negb (Ascii.eqb c "-") && no_dash rest
  end.

(** Splits at the first dash. *)
Fixpoint split_dash (s : string) : option (string * string) :=
  match s with
  | EmptyString => None
  | String c rest =>
      if Ascii.eqb c "-" then Some (EmptyString, rest)
      else match split_dash rest with
           | Some (a, b) => Some (String c a, b)
           | None => None
           end
  end.

(** Modelled from the spec: [parseBack], the inverse of the serial-number
    formatting, which the source does not contain: the part before the dash
    counts millions, the part after it the remainder. *)
Definition parseBack (s : string) : option Z :=
  match split_dash s with
  | Some (hi, lo) =>
      match parse_decimal hi, parse_decimal lo with
      | Some a, Some b => Some (a * 1000000 + b)
      | _, _ => None
      end
  | None => None
  end.

End Serial.

(* ===================================================================== *)
(** * Exceptions, the binding, and the driver monad *)
(* ===================================================================== *)

(** The exceptions that can leave the driver.  [IOError(val,
    api.aa_status_string(val))] is the only one the driver raises itself;
    [NameError] and [ValueError] are what Python raises for an unbound local
    and for [list.remove] of an absent element; [BindingError] stands for
    anything raised inside the vendor binding. *)
Inductive Exn :=
| IOError (errno : Z) (strerror : string)
| NameError (name : string)
| ValueError
| BindingError (what : string).

Inductive Result (A : Type) :=
| Ok (a : A)
| Raise (e : Exn).
Arguments Ok {A} a.
Arguments Raise {A} e.

(** [self.handle]: an int, [None] once closed. *)
Definition Handle := option Z.

(** [ver.version] of [aa_open_ext]. *)
Record AardvarkVersion := {
  software : Z;
  firmware : Z;
  hardware : Z;
  sw_req_by_fw : Z;
  fw_req_by_sw : Z;
  api_req_by_sw : Z
}.

Record AardvarkExt := { version : AardvarkVersion }.

(** The functions of [aardvark_py] the modelled part of the driver calls.
    [W] is the state of everything behind the binding (library, USB,
    adapter).  Each call answers with a value or raises. *)
Class Api (W : Type) := {
  aa_status_string : Z -> string;
  (** [aa_find_devices(array('H'))[0]] *)
  aa_find_devices : W -> Result Z * W;
  (** [aa_find_devices_ext(ports, unique_ids)] on two zero-filled arrays of
      the given length; answers [(num_devices, ports, unique_ids)] *)
  aa_find_devices_ext : Z -> W -> Result (Z * list Z * list Z) * W;
  aa_open_ext : Z -> W -> Result (Z * AardvarkExt) * W;
  aa_close : Handle -> W -> Result Z * W;
  aa_unique_id : Handle -> W -> Result Z * W;
  aa_configure : Handle -> Z -> W -> Result Z * W;
  aa_i2c_slave_set_response : Handle -> list Byte.byte -> W -> Result Z * W;
  aa_gpio_direction : Handle -> Z -> W -> Result Z * W;
  aa_gpio_pullup : Handle -> Z -> W -> Result Z * W;
  aa_gpio_set : Handle -> Z -> W -> Result Z * W;
  aa_gpio_change : Handle -> Z -> W -> Result Z * W
}.

(** One entry of the call log per binding call, with its arguments. *)
Inductive Call :=
| call_find_devices
| call_find_devices_ext (num_devices : Z)
| call_open_ext (port : Z)
| call_close (h : Handle)
| call_unique_id (h : Handle)
| call_configure (h : Handle) (value : Z)
| call_i2c_slave_set_response (h : Handle) (data : list Byte.byte)
| call_gpio_direction (h : Handle) (bitmask : Z)
| call_gpio_pullup (h : Handle) (bitmask : Z)
| call_gpio_set (h : Handle) (bitmask : Z)
| call_gpio_change (h : Handle) (timeout : Z).

(** The attributes of an [Aardvark] object. *)
Record Aardvark := {
  handle : Handle;
  hardware_revision : string;
  firmware_version : string;
  api_version : string;
  _i2c_slave_response : option (list Byte.byte);
  _configured_gpio_outputs : list Z;
  _high_gpio_outputs : list Z;
  _enabled_gpio_pullups : list Z
}.

(** An object none of whose attributes has been assigned yet.  No method
    reads an attribute before [__init__] has assigned it, so the placeholder
    values are never observed. *)
Definition blank : Aardvark := {|
  handle := None;
  hardware_revision := "";
  firmware_version := "";
  api_version := "";
  _i2c_slave_response := None;
  _configured_gpio_outputs := [];
  _high_gpio_outputs := [];
  _enabled_gpio_pullups := []
|}.

Definition with_handle (h : Handle) (a : Aardvark) : Aardvark := {|
  handle := h;
  hardware_revision := hardware_revision a;
  firmware_version := firmware_version a;
  api_version := api_version a;
  _i2c_slave_response := _i2c_slave_response a;
  _configured_gpio_outputs := _configured_gpio_outputs a;
  _high_gpio_outputs := _high_gpio_outputs a;
  _enabled_gpio_pullups := _enabled_gpio_pullups a
|}.

Definition with_versions (hw fw sw : string) (a : Aardvark) : Aardvark := {|
  handle := handle a;
  hardware_revision := hw;
  firmware_version := fw;
  api_version := sw;
  _i2c_slave_response := _i2c_slave_response a;
  _configured_gpio_outputs := _configured_gpio_outputs a;
  _high_gpio_outputs := _high_gpio_outputs a;
  _enabled_gpio_pullups := _enabled_gpio_pullups a
|}.

Definition with_i2c_slave_response (r : option (list Byte.byte))
    (a : Aardvark) : Aardvark := {|
  handle := handle a;
  hardware_revision := hardware_revision a;
  firmware_version := firmware_version a;
  api_version := api_version a;
  _i2c_slave_response := r;
  _configured_gpio_outputs := _configured_gpio_outputs a;
  _high_gpio_outputs := _high_gpio_outputs a;
  _enabled_gpio_pullups := _enabled_gpio_pullups a
|}.

Definition with_configured_gpio_outputs (l : list Z) (a : Aardvark)
    : Aardvark := {|
  handle := handle a;
  hardware_revision := hardware_revision a;
  firmware_version := firmware_version a;
  api_version := api_version a;
  _i2c_slave_response := _i2c_slave_response a;
  _configured_gpio_outputs := l;
  _high_gpio_outputs := _high_gpio_outputs a;
  _enabled_gpio_pullups := _enabled_gpio_pullups a
|}.

Definition with_high_gpio_outputs (l : list Z) (a : Aardvark) : Aardvark := {|
  handle := handle a;
  hardware_revision := hardware_revision a;
  firmware_version := firmware_version a;
  api_version := api_version a;
  _i2c_slave_response := _i2c_slave_response a;
  _configured_gpio_outputs := _configured_gpio_outputs a;
  _high_gpio_outputs := l;
  _enabled_gpio_pullups := _enabled_gpio_pullups a
|}.

Definition with_enabled_gpio_pullups (l : list Z) (a : Aardvark)
    : Aardvark := {|
  handle := handle a;
  hardware_revision := hardware_revision a;
  firmware_version := firmware_version a;
  api_version := api_version a;
  _i2c_slave_response := _i2c_slave_response a;
  _configured_gpio_outputs := _configured_gpio_outputs a;
  _high_gpio_outputs := _high_gpio_outputs a;
  _enabled_gpio_pullups := l
|}.

(** One entry of the list [find_devices] returns (a dict with the keys
    [port], [serial_number] and [in_use]). *)
Record Device := {
  dev_port : Z;
  dev_serial_number : string;
  dev_in_use : bool
}.

(** What a run of driver code acts on. *)
Record State (W : Type) := {
  world : W;
  calls : list Call;
  self : Aardvark
}.
Arguments world {W} s.
Arguments calls {W} s.
Arguments self {W} s.

(** Driver code: given a state, a value or an exception, and the state the
    run leaves behind (attributes assigned before an exception stay
    assigned). *)
Definition M (W A : Type) : Type := State W -> Result A * State W.

Definition ret {W A} (a : A) : M W A := fun s => (Ok a, s).

Definition raise {W A} (e : Exn) : M W A := fun s => (Raise e, s).

Definition bind {W A B} (m : M W A) (k : A -> M W B) : M W B :=
  fun s =>
    match m s with
    | (Ok a, s') => k a s'
    | (Raise e, s') => (Raise e, s')
    end.

Declare Scope driver_scope.
Delimit Scope driver_scope with driver.
Notation "x <- m ;; k" := (bind m (fun x => k))
  (at level 61, m at next level, right associativity) : driver_scope.
Notation "m ;; k" := (bind m (fun _ => k))
  (at level 61, right associativity) : driver_scope.
#[local] Open Scope driver_scope.

(** Reading and assigning the attributes of [self]. *)
Definition attr {W A} (f : Aardvark -> A) : M W A :=
  fun s => (Ok (f (self s)), s).

Definition assign {W} (f : Aardvark -> Aardvark) : M W unit :=
  fun s => (Ok tt, {| world := world s; calls := calls s; self := f (self s) |}).

(** A call into the binding: logged, then answered by the binding. *)
Definition api {W A} (c : Call) (f : W -> Result A * W) : M W A :=
  fun s =>
    let (r, w') := f (world s) in
    (r, {| world := w'; calls := calls s ++ [c]; self := self s |}).

(* ===================================================================== *)
(** * The driver: [pyaardvark/aardvark.py] *)
(* ===================================================================== *)

Section Driver.

Context {C : Constants} {W : Type} {A : Api W}.

(** [_raise_error_if_negative] *)
Definition _raise_error_if_negative (val : Z) : M W unit :=
  if val <? 0 then raise (IOError val (aa_status_string val)) else ret tt.

(** The loop body of [find_devices]: one dict per pair of [zip(ports,
    unique_ids)]. *)
Definition device_of (port uid : Z) : Device :=
  let in_use := negb (Z.land port PORT_NOT_FREE =? 0) in
  {| dev_port := Z.land port (Z.lnot PORT_NOT_FREE);
     dev_serial_number := _unique_id_str uid;
     dev_in_use := in_use |}.

(** [find_devices] *)
Definition find_devices : M W (list Device) :=
  num_devices <- api call_find_devices aa_find_devices ;;
  _raise_error_if_negative num_devices ;;
  if num_devices =? 0 then ret []
  else
    r <- api (call_find_devices_ext num_devices)
             (aa_find_devices_ext num_devices) ;;
    let '(num_devices, ports, unique_ids) := r in
    _raise_error_if_negative num_devices ;;
    if num_devices =? 0 then ret []
    else
      let ports := firstn (Z.to_nat num_devices) ports in
      let unique_ids := firstn (Z.to_nat num_devices) unique_ids in
      ret (map (fun pu => device_of (fst pu) (snd pu))
               (combine ports unique_ids)).

(** [Aardvark._interface_configuration] *)
Definition _interface_configuration (value : Z) : M W Z :=
  h <- attr handle ;;
  r <- api (call_configure h value) (aa_configure h value) ;;
  _raise_error_if_negative r ;;
  ret r.

(** [Aardvark.__init__] *)
Definition __init__ (port : Z) : M W unit :=
  rv <- api (call_open_ext port) (aa_open_ext port) ;;
  let '(r, ver) := rv in
  _raise_error_if_negative r ;;
  assign (with_handle (Some r)) ;;
  let version := version ver in
  assign (with_versions (_to_version_str (hardware version))
                        (_to_version_str (firmware version))
                        (_to_version_str (software version))) ;;
  let r :=
    if firmware version <? fw_req_by_sw version then ERR_INCOMPATIBLE_DEVICE
    else if software version <? sw_req_by_fw version
         then ERR_INCOMPATIBLE_LIBRARY
         else r in
  _raise_error_if_negative r ;;
  _interface_configuration CONFIG_SPI_I2C ;;
  assign (with_i2c_slave_response None) ;;
  assign (with_configured_gpio_outputs []) ;;
  assign (with_high_gpio_outputs []) ;;
  assign (with_enabled_gpio_pullups []).

(** [Aardvark(port)]: a fresh object, then [__init__] on it. *)
Definition new (port : Z) : M W unit :=
  assign (fun _ => blank) ;;
  __init__ port.

(** [Aardvark.close] *)
Definition close : M W unit :=
  h <- attr handle ;;
  api (call_close h) (aa_close h) ;;
  assign (with_handle None).

(** [Aardvark.unique_id] *)
Definition unique_id : M W Z :=
  h <- attr handle ;;
  api (call_unique_id h) (aa_unique_id h).

(** [Aardvark.unique_id_str] *)
Definition unique_id_str : M W string :=
  u <- unique_id ;;
  ret (_unique_id_str u).

(** The [for d in find_devices(): if d['serial_number'] == serial_number:
    break] loop of [open]: whether it left through [break], and what [d]
    is bound to afterwards (nothing when the list was empty). *)
Fixpoint scan (devices : list Device) (serial_number : string)
    (d : option Device) : bool * option Device :=
  match devices with
  | [] => (false, d)
  | x :: rest =>
      if String.eqb (dev_serial_number x) serial_number then (true, Some x)
      else scan rest serial_number (Some x)
  end.

(** [open] *)
Definition open (port : option Z) (serial_number : option string)
    : M W unit :=
  match port, serial_number with
  | None, None => new 0
  | _, Some serial_number =>
      devices <- find_devices ;;
      let (broke, d) := scan devices serial_number None in
      (if broke then ret tt
       else _raise_error_if_negative ERR_UNABLE_TO_OPEN) ;;
      d <- match d with
           | Some d => ret d
           | None => raise (NameError "d")
           end ;;
      new (dev_port d) ;;
      u <- unique_id_str ;;
      if negb (String.eqb u serial_number)
      then close ;; _raise_error_if_negative ERR_UNABLE_TO_OPEN
      else ret tt
  | Some port, None => new port
  end.

(** The getter of the property [enable_i2c]. *)
Definition enable_i2c : M W bool :=
  config <- _interface_configuration CONFIG_QUERY ;;
  ret ((config =? CONFIG_GPIO_I2C) || (config =? CONFIG_SPI_I2C)).

(** The [if]/[elif] chain of the setter of [enable_i2c]. *)
Definition i2c_new_config (value : bool) (config : Z) : Z :=
  if value && (config =? CONFIG_GPIO_ONLY) then CONFIG_GPIO_I2C
  else if value && (config =? CONFIG_SPI_GPIO) then CONFIG_SPI_I2C
  else if negb value && (config =? CONFIG_GPIO_I2C) then CONFIG_GPIO_ONLY
  else if negb value && (config =? CONFIG_SPI_I2C) then CONFIG_SPI_GPIO
  else config.

(** The setter of the property [enable_i2c]. *)
Definition enable_i2c_setter (value : bool) : M W unit :=
  config <- _interface_configuration CONFIG_QUERY ;;
  let new_config := i2c_new_config value config in
  if negb (new_config =? config)
  then _interface_configuration new_config ;; ret tt
  else ret tt.

(** The getter of the property [enable_spi]. *)
Definition enable_spi : M W bool :=
  config <- _interface_configuration CONFIG_QUERY ;;
  ret ((config =? CONFIG_SPI_GPIO) || (config =? CONFIG_SPI_I2C)).

(** The [if]/[elif] chain of the setter of [enable_spi]. *)
Definition spi_new_config (value : bool) (config : Z) : Z :=
  if value && (config =? CONFIG_GPIO_ONLY) then CONFIG_SPI_GPIO
  else if value && (config =? CONFIG_GPIO_I2C) then CONFIG_SPI_I2C
  else if negb value && (config =? CONFIG_SPI_GPIO) then CONFIG_GPIO_ONLY
  else if negb value && (config =? CONFIG_SPI_I2C) then CONFIG_GPIO_I2C
  else config.

(** The setter of the property [enable_spi]. *)
Definition enable_spi_setter (value : bool) : M W unit :=
  config <- _interface_configuration CONFIG_QUERY ;;
  let new_config := spi_new_config value config in
  if negb (new_config =? config)
  then _interface_configuration new_config ;; ret tt
  else ret tt.

(** The getter of the property [i2c_slave_response]. *)
Definition i2c_slave_response : M W (option (list Byte.byte)) :=
  attr _i2c_slave_response.

(** The setter of the property [i2c_slave_response]; [data] is already a
    sequence of bytes, which [array.array('B', data)] copies. *)
Definition i2c_slave_response_setter (data : list Byte.byte) : M W unit :=
  h <- attr handle ;;
  r <- api (call_i2c_slave_set_response h data)
           (aa_i2c_slave_set_response h data) ;;
  _raise_error_if_negative r ;;
  assign (with_i2c_slave_response (Some data)).

(** The getter of the property [configured_gpio_outputs]. *)
Definition configured_gpio_outputs : M W (list Z) :=
  attr _configured_gpio_outputs.

(** The setter of the property [configured_gpio_outputs]. *)
Definition configured_gpio_outputs_setter (used_outputs : list Z)
    : M W unit :=
  let bitmask := Py.sum used_outputs in
  cur <- attr _configured_gpio_outputs ;;
  if bitmask =? Py.sum cur then ret tt
  else
    h <- attr handle ;;
    r <- api (call_gpio_direction h bitmask) (aa_gpio_direction h bitmask) ;;
    _raise_error_if_negative r ;;
    assign (with_configured_gpio_outputs used_outputs).

(** The getter of the property [enabled_gpio_pullups]. *)
Definition enabled_gpio_pullups : M W (list Z) :=
  attr _enabled_gpio_pullups.

(** The setter of the property [enabled_gpio_pullups]. *)
Definition enabled_gpio_pullups_setter (enabled_pullups : list Z)
    : M W unit :=
  let bitmask := Py.sum enabled_pullups in
  cur <- attr _enabled_gpio_pullups ;;
  if bitmask =? Py.sum cur then ret tt
  else
    h <- attr handle ;;
    r <- api (call_gpio_pullup h bitmask) (aa_gpio_pullup h bitmask) ;;
    _raise_error_if_negative r ;;
    assign (with_enabled_gpio_pullups enabled_pullups).

(** [Aardvark.gpio_clear] *)
Definition gpio_clear (output : Z) : M W unit :=
  high <- attr _high_gpio_outputs ;;
  if negb (Py.contains output high) then ret tt
  else
    new_list <- match Py.remove output high with
                | Some l => ret l
                | None => raise ValueError
                end ;;
    let mask := Py.sum new_list in
    h <- attr handle ;;
    r <- api (call_gpio_set h mask) (aa_gpio_set h mask) ;;
    _raise_error_if_negative r ;;
    assign (with_high_gpio_outputs new_list).

(** [Aardvark.gpio_poll] *)
Definition gpio_poll (timeout : Z) : M W (list Z) :=
  h <- attr handle ;;
  bitmask <- api (call_gpio_change h timeout) (aa_gpio_change h timeout) ;;
  _raise_error_if_negative bitmask ;;
  ret (filter (fun pin => negb (Z.land bitmask pin =? 0)) gpios).

(** [Aardvark.gpio_get] *)
Definition gpio_get (output : Z) : M W bool :=
  configured <- attr _configured_gpio_outputs ;;
  if Py.contains output configured
  then high <- attr _high_gpio_outputs ;; ret (Py.contains output high)
  else polled <- gpio_poll 32 ;; ret (Py.contains output polled).

(** [Aardvark.gpio_set] *)
Definition gpio_set (output : Z) : M W unit :=
  high <- attr _high_gpio_outputs ;;
  if Py.contains output high then ret tt
  else
    let new_list := high ++ [output] in
    let mask := Py.sum new_list in
    h <- attr handle ;;
    r <- api (call_gpio_set h mask) (aa_gpio_set h mask) ;;
    _raise_error_if_negative r ;;
    assign (with_high_gpio_outputs new_list).

(** [Aardvark.gpio_toggle] *)
Definition gpio_toggle (output : Z) : M W unit :=
  high <- attr _high_gpio_outputs ;;
  if Py.contains output high then gpio_clear output else gpio_set output.

End Driver.

(* ===================================================================== *)
(** * Vocabulary of the properties *)
(* ===================================================================== *)

Section Vocabulary.

Context {C : Constants} {W : Type} {A : Api W}.

(** The two facets of a configuration, read as the getters [enable_i2c] and
    [enable_spi] read them. *)
Definition i2c_facet (config : Z) : bool :=
  (config =? CONFIG_GPIO_I2C) || (config =? CONFIG_SPI_I2C).

Definition spi_facet (config : Z) : bool :=
  (config =? CONFIG_SPI_GPIO) || (config =? CONFIG_SPI_I2C).

Definition valid_config (config : Z) : Prop :=
  In config [CONFIG_GPIO_ONLY; CONFIG_SPI_GPIO; CONFIG_GPIO_I2C; CONFIG_SPI_I2C].

(** The binding behaves as a configuration register [reg]: a query that is
    answered reads it and leaves it alone, a change that is answered has
    written it.  Nothing is assumed about calls that raise or answer with a
    negative status. *)
Record ConfigRegister (reg : W -> Z) : Prop := {
  query_reads : forall h w r w',
    aa_configure h CONFIG_QUERY w = (Ok r, w') -> 0 <= r ->
    r = reg w /\ reg w' = reg w;
  change_writes : forall h v w r w',
    v <> CONFIG_QUERY -> aa_configure h v w = (Ok r, w') -> 0 <= r ->
    reg w' = v
}.



Definition is_open (c : Call) : bool :=
  match c with
  | call_open_ext _ => true
  | _ => false
  end.

Definition is_close (c : Call) : bool :=
  match c with
  | call_close _ => true
  | _ => false
  end.

(** The handle a logged call was made with, for the calls that take one. *)
Definition call_handle (c : Call) : option Handle :=
  match c with
  | call_find_devices | call_find_devices_ext _ | call_open_ext _ => None
  | call_close h | call_unique_id h | call_configure h _
  | call_i2c_slave_set_response h _ | call_gpio_direction h _
  | call_gpio_pullup h _ | call_gpio_set h _ | call_gpio_change h _ => Some h
  end.

(** What the binding answers to a logged call whose answer is a status. *)
Definition replay (c : Call) (w : W) : option (Result Z * W) :=
  match c with
  | call_close h => Some (aa_close h w)
  | call_unique_id h => Some (aa_unique_id h w)
  | call_configure h v => Some (aa_configure h v w)
  | call_i2c_slave_set_response h d => Some (aa_i2c_slave_set_response h d w)
  | call_gpio_direction h m => Some (aa_gpio_direction h m w)
  | call_gpio_pullup h m => Some (aa_gpio_pullup h m w)
  | call_gpio_set h m => Some (aa_gpio_set h m w)
  | call_gpio_change h t => Some (aa_gpio_change h t w)
  | call_find_devices => Some (aa_find_devices w)
  | call_find_devices_ext _ | call_open_ext _ => None
  end.

(** The union of a list of bitmasks. *)
Definition bitmask_union (l : list Z) : Z := fold_right Z.lor 0 l.

(** A set of pins: no pin twice, every element one of the six pins. *)
Definition pin_set (l : list Z) : Prop :=
  NoDup l /\ Forall (fun p => In p gpios) l.

(** The invariant of the shadow GPIO state. *)
Definition high_within_configured (a : Aardvark) : Prop :=
  incl (_high_gpio_outputs a) (_configured_gpio_outputs a).

(** Discards the value of a call. *)
Definition void {T} (m : M W T) : M W unit := bind m (fun _ => ret tt).

(** [try: m / except: pass], telling whether [m] returned. *)
Definition attempt {T} (m : M W T) : M W bool :=
  fun s =>
    match m s with
    | (Ok _, s') => (Ok true, s')
    | (Raise _, s') => (Ok false, s')
    end.

(** The three outcomes of the one call of a write: the status is negative,
    the status is not, the binding raised. *)
Definition outcome (s : State W) (c : Call) (ans : Result Z * W)
    (commit : Aardvark -> Aardvark) : Result unit * State W :=
  match ans with
  | (Ok r, w') =>
      if r <? 0
      then (Raise (IOError r (aa_status_string r)),
            {| world := w'; calls := calls s ++ [c]; self := self s |})
      else (Ok tt,
            {| world := w'; calls := calls s ++ [c]; self := commit (self s) |})
  | (Raise e, w') =>
      (Raise e, {| world := w'; calls := calls s ++ [c]; self := self s |})
  end.

(** The common shape of the setters of [enable_i2c] and [enable_spi]:
    query, compute the new configuration with [f], change when it differs. *)
Definition setter_with (f : Z -> Z) : M W unit :=
  config <- _interface_configuration CONFIG_QUERY ;;
  let new_config := f config in
  if negb (new_config =? config)
  then _interface_configuration new_config ;; ret tt
  else ret tt.

(** The writes that go through the shadow cache. *)
Inductive Write :=
| WriteOutputs (pins : list Z)
| WritePullups (pins : list Z)
| WriteHigh (pin : Z)
| WriteLow (pin : Z)
| WriteResponse (data : list Byte.byte).

Definition run_write (wr : Write) : M W unit :=
  match wr with
  | WriteOutputs pins => configured_gpio_outputs_setter pins
  | WritePullups pins => enabled_gpio_pullups_setter pins
  | WriteHigh pin => gpio_set pin
  | WriteLow pin => gpio_clear pin
  | WriteResponse data => i2c_slave_response_setter data
  end.

(** Driving one output pin. *)
Inductive Drive :=
| DriveHigh (pin : Z)
| DriveLow (pin : Z)
| Toggle (pin : Z).

Definition drive (d : Drive) : M W unit :=
  match d with
  | DriveHigh pin => gpio_set pin
  | DriveLow pin => gpio_clear pin
  | Toggle pin => gpio_toggle pin
  end.

Definition drive_pin (d : Drive) : Z :=
  match d with
  | DriveHigh pin | DriveLow pin | Toggle pin => pin
  end.

(** A caller driving pins one after the other, going on after a failure;
    the outcomes are recorded. *)
Fixpoint drives (ds : list Drive) : M W (list bool) :=
  match ds with
  | [] => ret []
  | d :: ds' =>
      ok <- attempt (drive d) ;;
      oks <- drives ds' ;;
      ret (ok :: oks)
  end.

(** The level the last successful drive of [pin] asked for, [level] when
    there was none. *)
Fixpoint level_after (pin : Z) (ds : list Drive) (oks : list bool)
    (level : bool) : bool :=
  match ds, oks with
  | d :: ds', ok :: oks' =>
      level_after pin ds' oks'
        (if ok && (drive_pin d =? pin)
         then match d with
              | DriveHigh _ => true
              | DriveLow _ => false
              | Toggle _ => negb level
              end
         else level)
  | _, _ => level
  end.

(** The operations of a session that are modelled. *)
Inductive Op :=
| OpClose
| OpUniqueId
| OpUniqueIdStr
| OpEnableI2c
| OpSetEnableI2c (value : bool)
| OpEnableSpi
| OpSetEnableSpi (value : bool)
| OpSlaveResponse
| OpSetSlaveResponse (data : list Byte.byte)
| OpConfiguredOutputs
| OpSetConfiguredOutputs (used_outputs : list Z)
| OpPullups
| OpSetPullups (enabled_pullups : list Z)
| OpGpioClear (output : Z)
| OpGpioGet (output : Z)
| OpGpioPoll (timeout : Z)
| OpGpioSet (output : Z)
| OpGpioToggle (output : Z).

Definition run_op (op : Op) : M W unit :=
  match op with
  | OpClose => close
  | OpUniqueId => void unique_id
  | OpUniqueIdStr => void unique_id_str
  | OpEnableI2c => void enable_i2c
  | OpSetEnableI2c value => enable_i2c_setter value
  | OpEnableSpi => void enable_spi
  | OpSetEnableSpi value => enable_spi_setter value
  | OpSlaveResponse => void i2c_slave_response
  | OpSetSlaveResponse data => i2c_slave_response_setter data
  | OpConfiguredOutputs => void configured_gpio_outputs
  | OpSetConfiguredOutputs used_outputs =>
      configured_gpio_outputs_setter used_outputs
  | OpPullups => void enabled_gpio_pullups
  | OpSetPullups enabled_pullups => enabled_gpio_pullups_setter enabled_pullups
  | OpGpioClear output => gpio_clear output
  | OpGpioGet output => void (gpio_get output)
  | OpGpioPoll timeout => void (gpio_poll timeout)
  | OpGpioSet output => gpio_set output
  | OpGpioToggle output => gpio_toggle output
  end.

(** The uses under which the shadow GPIO invariant survives: a pin is only
    driven high when it is a configured output, and the configured outputs
    are only replaced by a list that keeps every pin driven high. *)
Definition keeps_outputs (op : Op) (a : Aardvark) : Prop :=
  match op with
  | OpGpioSet output | OpGpioToggle output =>
      In output (_high_gpio_outputs a) \/ In output (_configured_gpio_outputs a)
  | OpSetConfiguredOutputs used_outputs =>
      incl (_high_gpio_outputs a) used_outputs
  | _ => True
  end.

End Vocabulary.

Section VocabularyAnswers.

Context {C : Constants} {W : Type} {A : Api W}.

(** The adapter behind the handle [h] answers, as long as the binding is in
    a state that satisfies [ok]: a query is answered with the configuration
    register [reg] and leaves it alone, a change to one of the four
    configurations is answered with a status that is not negative and has
    written the register; both leave the binding in a state that satisfies
    [ok]. *)
Record ConfigAnswers (reg : W -> Z) (ok : W -> Prop) (h : Handle) : Prop := {
  query_answered : forall w,
    ok w ->
    exists w', aa_configure h CONFIG_QUERY w = (Ok (reg w), w')
               /\ reg w' = reg w /\ ok w';
  change_answered : forall v w,
    ok w -> valid_config v ->
    exists r w', aa_configure h v w = (Ok r, w')
                 /\ 0 <= r /\ reg w' = v /\ ok w'
}.

End VocabularyAnswers.

(* ===================================================================== *)
(** * A simulated adapter, for concrete runs *)
(* ===================================================================== *)

Module Sim.

(** What sits behind the binding in the concrete runs: the enumeration
    snapshot the library reports, the adapters really attached (port and
    unique id), the versions every adapter reports, a status with which
    every command is answered when it is negative (fault injection), the
    configuration register and the levels of the input pins. *)
Record World := {
  listed : list (Z * Z);
  attached : list (Z * Z);
  versions : AardvarkVersion;
  status : Z;
  config : Z;
  inputs : Z
}.

Definition with_config (c : Z) (w : World) : World := {|
  listed := listed w;
  attached := attached w;
  versions := versions w;
  status := status w;
  config := c;
  inputs := inputs w
|}.

Fixpoint lookup (port : Z) (l : list (Z * Z)) : option Z :=
  match l with
  | [] => None
  | (p, u) :: l' => if p =? port then Some u else lookup port l'
  end.

(** An array of the requested length, filled from the front. *)
Definition fill (n : Z) (l : list Z) : list Z :=
  firstn (Z.to_nat n) (l ++ repeat 0 (Z.to_nat n)).

(** The binding refuses a handle that is not an int. *)
Definition with_int {T} (h : Handle) (f : Z -> World -> Result T * World)
    (w : World) : Result T * World :=
  match h with
  | Some i => f i w
  | None => (Raise (BindingError "an integer is required"), w)
  end.

(** The status of a command that answers [ok] when no fault is injected. *)
Definition answer (ok : Z) (w : World) : Result Z * World :=
  (Ok (if status w <? 0 then status w else ok), w).

#[export] Instance sim_api : Api World := {|
  aa_status_string := fun code => if code <? 0 then "error" else "ok";
  aa_find_devices := fun w => (Ok (Z.of_nat (List.length (listed w))), w);
  aa_find_devices_ext := fun n w =>
    (Ok (Z.of_nat (List.length (listed w)),
         fill n (map fst (listed w)), fill n (map snd (listed w))), w);
  aa_open_ext := fun port w =>
    match lookup port (attached w) with
    | Some _ => (Ok (port + 1, {| version := versions w |}), w)
    | None => (Ok (-7, {| version := versions w |}), w)
    end;
  aa_close := fun h => with_int h (fun _ => answer 1);
  aa_unique_id := fun h => with_int h (fun i w =>
    (Ok (match lookup (i - 1) (attached w) with
         | Some u => u
         | None => 0
         end), w));
  aa_configure := fun h v => with_int h (fun _ w =>
    if status w <? 0 then (Ok (status w), w)
    else if v =? 128 then (Ok (config w), w)
    else (Ok v, with_config v w));
  aa_i2c_slave_set_response := fun h data =>
    with_int h (fun _ => answer (Z.of_nat (List.length data)));
  aa_gpio_direction := fun h _ => with_int h (fun _ => answer 0);
  aa_gpio_pullup := fun h _ => with_int h (fun _ => answer 0);
  aa_gpio_set := fun h _ => with_int h (fun _ => answer 0);
  aa_gpio_change := fun h _ => with_int h (fun _ w => answer (inputs w) w)
|}.

Definition no_requirements : AardvarkVersion := {|
  software := 1286;
  firmware := 833;
  hardware := 768;
  sw_req_by_fw := 0;
  fw_req_by_sw := 0;
  api_req_by_sw := 0
|}.

(** One adapter with serial number 1234-567890 on port 0, configured as
    GPIO only, SDA and SS read high. *)
Definition bench : World := {|
  listed := [(0, 1234567890)];
  attached := [(0, 1234567890)];
  versions := no_requirements;
  status := 0;
  config := 0;
  inputs := 34
|}.

(** The same bench, with every command answered by a communication
    error. *)
Definition faulty : World := {|
  listed := [(0, 1234567890)];
  attached := [(0, 1234567890)];
  versions := no_requirements;
  status := -6;
  config := 0;
  inputs := 34
|}.

(** The adapter on port 0 was swapped after the enumeration snapshot. *)
Definition swapped : World := {|
  listed := [(0, 1234567890)];
  attached := [(0, 1111222222)];
  versions := no_requirements;
  status := 0;
  config := 0;
  inputs := 0
|}.

(** An adapter whose firmware is older than the library requires. *)
Definition old_firmware : World := {|
  listed := [(0, 1234567890)];
  attached := [(0, 1234567890)];
  versions := {| software := 1286; firmware := 256; hardware := 768;
                 sw_req_by_fw := 0; fw_req_by_sw := 768;
                 api_req_by_sw := 0 |};
  status := 0;
  config := 0;
  inputs := 0
|}.

(** The start of a run: nothing called yet, no object constructed. *)
Definition start (w : World) : State World :=
  {| world := w; calls := []; self := blank |}.

(** A session on [w] as [Aardvark(0)] would leave it, with the given
    handle. *)
Definition session (w : World) (h : Handle) (outs high : list Z)
    : State World :=
  {| world := w; calls := [];
     self := with_high_gpio_outputs high
               (with_configured_gpio_outputs outs (with_handle h blank)) |}.

(** The session [open()] gives on the bench. *)
Definition opened : State World :=
  Eval vm_compute in snd (open None None (start bench)).

(** The same session after [close()]. *)
Definition closed : State World :=
  Eval vm_compute in snd (close opened).

(** What [find_devices()] reports on the swapped bench, and the state it
    leaves. *)
Definition swapped_device : Device :=
  {| dev_port := 0; dev_serial_number := "1234-567890"; dev_in_use := false |}.

Definition swapped_enumerated : State World :=
  Eval vm_compute in snd (find_devices (start swapped)).

(** The session [Aardvark(0)] gives after that enumeration. *)
Definition swapped_opened : State World :=
  Eval vm_compute in snd (new 0 swapped_enumerated).

(** A session on the bench in the configuration GPIO + I2C. *)
Definition gpio_i2c : State World :=
  session (with_config 2 bench) (Some 1) [] [].

(** A session with SCK and SCL configured as outputs, nothing driven. *)
Definition two_outputs : State World := session bench (Some 1) [8; 1] [].

(** Three drives on that session, and the session they leave: SCK raised,
    SCK toggled back, SCL raised. *)
Definition three_drives : list Drive :=
  [DriveHigh 8; Toggle 8; DriveHigh 1].

Definition driven : State World :=
  Eval vm_compute in snd (drives three_drives two_outputs).

(** A session in which SCK is not a configured output while the cache
    still lists it as driven high. *)
Definition stale : State World := session bench (Some 1) [] [8].

(** The same session on the faulty bench. *)
Definition two_outputs_faulty : State World :=
  session faulty (Some 1) [8; 1] [].

End Sim.

(* ===================================================================== *)
(** * More of the driver *)
(* ===================================================================== *)

Module PySeq.

(** [del l[n:]]: keeps the first [n] elements, counted from the end when [n]
    is negative. *)
Definition del_from {T} (n : Z) (l : list T) : list T :=
  if n <? 0 then firstn (Z.to_nat (Z.of_nat (List.length l) + n)) l
  else firstn (Z.to_nat n) l.

(** [(0,) * n] as an [array.array('B', ...)]: empty when [n] is negative. *)
Definition zero_bytes (n : Z) : list Byte.byte :=
  repeat Byte.x00 (Z.to_nat n).

End PySeq.

(** Further names of [pyaardvark.constants], and the module globals that
    [status_string] walks through: the names of the module in the order of
    [globals().items()], each with its value when that is an int. *)
Class MoreConstants := {
  I2C_STATUS_OK : Z;
  I2C_NO_FLAGS : Z;
  I2C_NO_STOP : Z;
  POLL_I2C_READ : Z;
  POLL_I2C_WRITE : Z;
  POLL_SPI : Z;
  POLL_I2C_MONITOR : Z;
  module_globals : list (string * option Z)
}.

(** The events [poll] looks for, in the order of its loop. *)
Definition poll_events `{MoreConstants} : list Z :=
  [POLL_I2C_READ; POLL_I2C_WRITE; POLL_SPI; POLL_I2C_MONITOR].

(** Further functions of [aardvark_py].  [aa_i2c_read_ext] is handed the
    zero-filled buffer and answers [(status, data, rx_len)];
    [aa_i2c_write_ext] answers [(status, num_written)]. *)
Class MoreApi (W : Type) := {
  aa_async_poll : Handle -> Z -> W -> Result Z * W;
  aa_i2c_write_ext :
    Handle -> Z -> Z -> list Byte.byte -> W -> Result (Z * Z) * W;
  aa_i2c_read_ext :
    Handle -> Z -> Z -> list Byte.byte -> W
    -> Result (Z * list Byte.byte * Z) * W
}.

(** A call into one of these functions; the call log only follows the
    functions of [Api]. *)
Definition api_more {W T} (f : W -> Result T * W) : M W T :=
  fun s =>
    let (r, w') := f (world s) in
    (r, {| world := w'; calls := calls s; self := self s |}).

Section DriverMore.

Context {C : Constants} {C2 : MoreConstants} {W : Type} {A : Api W}
  {A2 : MoreApi W}.

(** [status_string]: the first global whose name starts with [I2C_STATUS_]
    and whose value equals [code]. *)
Definition status_string (code : Z) : string :=
  match find (fun kv =>
                String.prefix "I2C_STATUS_" (fst kv)
                && match snd kv with
                   | Some v => v =? code
                   | None => false
                   end) module_globals with
  | Some kv => fst kv
  | None => "I2C_STATUS_UNKNOWN_STATUS"
  end.

(** [_raise_i2c_status_code_error_if_failure] *)
Definition _raise_i2c_status_code_error_if_failure (code : Z) : M W unit :=
  if negb (code =? I2C_STATUS_OK)
  then raise (IOError code (status_string code))
  else ret tt.

(** [Aardvark.__enter__] (returns [self]). *)
Definition __enter__ : M W unit := ret tt.

(** [Aardvark.__exit__] *)
Definition __exit__ : M W bool :=
  close ;;
  ret false.

(** [with <the object> as a: body]: [__enter__], the body, then [__exit__]
    whether the body returned or raised; the exception of the body goes on
    unless [__exit__] returned true, an exception of [__exit__] replaces
    it. *)
Definition with_block (body : M W unit) : M W unit :=
  __enter__ ;;
  fun s =>
    match body s with
    | (Ok _, s1) =>
        match __exit__ s1 with
        | (Ok _, s2) => (Ok tt, s2)
        | (Raise e, s2) => (Raise e, s2)
        end
    | (Raise e, s1) =>
        match __exit__ s1 with
        | (Ok suppress, s2) => if suppress then (Ok tt, s2) else (Raise e, s2)
        | (Raise e', s2) => (Raise e', s2)
        end
    end.

(** [Aardvark.i2c_master_write] *)
Definition i2c_master_write (i2c_address : Z) (data : list Byte.byte)
    (flags : Z) : M W unit :=
  h <- attr handle ;;
  r <- api_more (aa_i2c_write_ext h i2c_address flags data) ;;
  let (status, _) := r in
  _raise_i2c_status_code_error_if_failure status.

(** [Aardvark.i2c_master_read] *)
Definition i2c_master_read (addr : Z) (length : Z) (flags : Z)
    : M W (list Byte.byte) :=
  let data := PySeq.zero_bytes length in
  h <- attr handle ;;
  r <- api_more (aa_i2c_read_ext h addr flags data) ;;
  let '(status, data, rx_len) := r in
  _raise_i2c_status_code_error_if_failure status ;;
  ret (PySeq.del_from rx_len data).

(** [Aardvark.i2c_master_write_read] *)
Definition i2c_master_write_read (i2c_address : Z) (data : list Byte.byte)
    (length : Z) : M W (list Byte.byte) :=
  i2c_master_write i2c_address data I2C_NO_STOP ;;
  i2c_master_read i2c_address length I2C_NO_FLAGS.

(** [Aardvark.poll] *)
Definition poll (timeout : option Z) : M W (list Z) :=
  let timeout := match timeout with
                 | None => -1
                 | Some t => t
                 end in
  h <- attr handle ;;
  r <- api_more (aa_async_poll h timeout) ;;
  _raise_error_if_negative r ;;
  ret (filter (fun event => negb (Z.land r event =? 0)) poll_events).

End DriverMore.

(** Vocabulary of the further properties. *)
Section VocabularyMore.

Context {C : Constants} {C2 : MoreConstants}.

(** A list of distinct single-bit masks. *)
Definition distinct_bits (l : list Z) : Prop :=
  NoDup l /\ Forall single_bit l.

(** The names of the I2C status constants among the module globals. *)
Definition is_status_name (k : string) : Prop :=
  String.prefix "I2C_STATUS_" k = true.

(** The character [c] does not occur in [s]. *)
Fixpoint free_of (c : ascii) (s : string) : bool :=
  match s with
  | EmptyString => true
  | String x rest => negb (Ascii.eqb x c) && free_of c rest
  end.

(** Splits at the first occurrence of [c]. *)
Fixpoint split_at (c : ascii) (s : string) : option (string * string) :=
  match s with
  | EmptyString => None
  | String x rest =>
      if Ascii.eqb x c then Some (EmptyString, rest)
      else match split_at c rest with
           | Some (a, b) => Some (String x a, b)
           | None => None
           end
  end.

(** The flag bit of a raw port as [find_devices] re-encodes it. *)
Definition raw_port (d : Device) : Z :=
  Z.lor (dev_port d) (if dev_in_use d then PORT_NOT_FREE else 0).

End VocabularyMore.

Module SimMore.

Import Sim.

(** The values of the vendor header, and the status names in the order the
    module defines them, after two globals that are not status names. *)
#[export] Instance more_constants : MoreConstants := {|
  I2C_STATUS_OK := 0;
  I2C_NO_FLAGS := 0;
  I2C_NO_STOP := 4;
  POLL_I2C_READ := 1;
  POLL_I2C_WRITE := 2;
  POLL_SPI := 4;
  POLL_I2C_MONITOR := 8;
  module_globals :=
    [("log", None); ("I2C_NO_FLAGS", Some 0);
     ("I2C_STATUS_OK", Some 0); ("I2C_STATUS_BUS_ERROR", Some 1);
     ("I2C_STATUS_SLA_ACK", Some 2); ("I2C_STATUS_SLA_NACK", Some 3);
     ("I2C_STATUS_DATA_NACK", Some 4); ("I2C_STATUS_ARB_LOST", Some 5);
     ("I2C_STATUS_BUS_LOCKED", Some 6);
     ("I2C_STATUS_LAST_DATA_ACK", Some 7)]
|}.

(** The simulated adapter answers a read by filling the buffer with
    [0x2a] and reporting one byte less than asked, a write by reporting all
    bytes written, both with the I2C status [3] (no acknowledge) when a fault
    is injected; a poll reports the input levels as events. *)
#[export] Instance sim_more_api : MoreApi World := {|
  aa_async_poll := fun h _ => with_int h (fun _ w => answer (inputs w) w);
  aa_i2c_write_ext := fun h _ _ data => with_int h (fun _ w =>
    (Ok (if status w <? 0 then 3 else 0, Z.of_nat (List.length data)), w));
  aa_i2c_read_ext := fun h _ _ data => with_int h (fun _ w =>
    (Ok (if status w <? 0 then 3 else 0,
         map (fun _ => Byte.x2a) data,
         Z.of_nat (List.length data) - 1), w))
|}.

(** A session with SS driven high, a second one with SCL and SS high. *)
Definition ss_high : State World := session bench (Some 1) [32; 1] [32].

Definition scl_ss_high : State World :=
  session bench (Some 1) [32; 1] [1; 32].

(** The session [open(serial_number='1234-567890')] gives on the bench,
    and the states on the way: after the enumeration, after the
    constructor. *)
Definition bench_enumerated : State World :=
  Eval vm_compute in snd (find_devices (start bench)).

Definition bench_constructed : State World :=
  Eval vm_compute in snd (new 0 bench_enumerated).

Definition opened_by_serial : State World :=
  Eval vm_compute in snd (open None (Some "1234-567890") (start bench)).

(** No adapter attached. *)
Definition empty_bench : World := {|
  listed := [];
  attached := [];
  versions := no_requirements;
  status := 0;
  config := 0;
  inputs := 0
|}.

(** Two adapters listed, the first one in use (port 2 with the flag). *)
Definition busy_bench : World := {|
  listed := [(32770, 1111222222); (1, 5)];
  attached := [(2, 1111222222); (1, 5)];
  versions := no_requirements;
  status := 0;
  config := 0;
  inputs := 0
|}.

(** The bench with a read and an SPI event pending. *)
Definition events_pending : State World :=
  session {| listed := [(0, 1234567890)]; attached := [(0, 1234567890)];
             versions := no_requirements; status := 0; config := 0;
             inputs := 5 |} (Some 1) [] [].


Definition ss_raised : State World :=
  Eval vm_compute in snd (gpio_set 32 opened).

Definition with_response : State World :=
  Eval vm_compute in
    snd (i2c_slave_response_setter [Byte.x01; Byte.x02] opened).

Definition sck_raised : State World :=
  Eval vm_compute in snd (gpio_set 8 two_outputs).

Definition sck_lowered : State World :=
  Eval vm_compute in snd (gpio_clear 8 sck_raised).

End SimMore.

(* ===================================================================== *)
(** * Serial numbers *)
(* ===================================================================== *)

Section SerialNumbers.

Lemma no_dash_app s t :
  Serial.no_dash s = true -> Serial.no_dash t = true -> Serial.no_dash (s ++ t)%string = true.
Proof.
  induction s as [|c s IH]; simpl; intros Hs Ht; [exact Ht|].
  apply andb_true_iff in Hs as [Hc Hs].
  rewrite Hc. simpl. now apply IH.
Qed.

Lemma no_dash_zeros k : Serial.no_dash (Py.zeros k) = true.
Proof. induction k; simpl; auto. Qed.

Lemma no_dash_digits d : Serial.no_dash (NilEmpty.string_of_uint d) = true.
Proof. induction d; simpl; auto. Qed.

Lemma no_dash_zfill w n : Serial.no_dash (Py.zfill w (Py.decimal n)) = true.
Proof.
  unfold Py.zfill, Py.decimal.
  apply no_dash_app; [apply no_dash_zeros | apply no_dash_digits].
Qed.

Lemma split_dash_app s t :
  Serial.no_dash s = true ->
  Serial.split_dash (s ++ String "-" t)%string = Some (s, t).
Proof.
  induction s as [|c s IH]; simpl; intros Hs; [reflexivity|].
  apply andb_true_iff in Hs as [Hc Hs].
  apply negb_true_iff in Hc. rewrite Hc, (IH Hs). reflexivity.
Qed.

(** Leading zeros do not change the number read. *)
Lemma uint_of_zeros k d :
  exists d', NilEmpty.uint_of_string
               (Py.zeros k ++ NilEmpty.string_of_uint d)%string = Some d'
             /\ N.of_uint d' = N.of_uint d.
Proof.
  induction k as [|k [d' [E1 E2]]]; simpl.
  - exists d. split; [apply NilEmpty.usu | reflexivity].
  - exists (D0 d'). rewrite E1. split; [reflexivity | exact E2].
Qed.

Lemma decimal_nonempty n : Py.decimal n <> EmptyString.
Proof.
  unfold Py.decimal. intros E.
  assert (H : N.to_uint n = Nil) by (destruct (N.to_uint n); simpl in E; congruence).
  destruct n as [|p]; [discriminate|].
  simpl in H. revert H. apply DecimalPos.Unsigned.to_uint_nonnil.
Qed.

Lemma zfill_nonempty w n : Py.zfill w (Py.decimal n) <> EmptyString.
Proof.
  unfold Py.zfill. intros E.
  destruct (Py.zeros (w - String.length (Py.decimal n))); simpl in E;
    [now apply decimal_nonempty in E | discriminate].
Qed.

Lemma parse_zfill w n :
  Serial.parse_decimal (Py.zfill w (Py.decimal n)) = Some (Z.of_N n).
Proof.
  unfold Serial.parse_decimal.
  destruct (Py.zfill w (Py.decimal n)) eqn:E;
    [now apply zfill_nonempty in E|].
  rewrite <- E. unfold Py.zfill, Py.decimal.
  destruct (uint_of_zeros (w - String.length (NilEmpty.string_of_uint (N.to_uint n)))
              (N.to_uint n)) as [d' [E1 E2]].
  rewrite E1. simpl. rewrite E2, DecimalN.Unsigned.of_to. reflexivity.
Qed.

Lemma fmt_0d_nonneg w n :
  0 <= n -> Py.fmt_0d w n = Py.zfill w (Py.decimal (Z.to_N n)).
Proof. destruct n; simpl; intros; [reflexivity | reflexivity | lia]. Qed.

(** On a non-negative id, truncating the exact quotient is the integer
    quotient. *)
Lemma trunc_truediv id (b : positive) :
  0 <= id -> Py.trunc (Py.truediv id b) = id / Zpos b.
Proof.
  intros H. unfold Py.trunc, Py.truediv. simpl.
  apply Z.quot_div_nonneg; lia.
Qed.

Lemma unique_id_str_halves id :
  0 <= id ->
  _unique_id_str id =
    (Py.fmt_0d 4 (id / 1000000) ++ "-" ++ Py.fmt_0d 6 (id mod 1000000))%string.
Proof.
  intros H. unfold _unique_id_str. cbv zeta.
  rewrite trunc_truediv by exact H. reflexivity.
Qed.

Lemma parseBack_unique_id_str id :
  0 <= id -> Serial.parseBack (_unique_id_str id) = Some id.
Proof.
  intros H. rewrite unique_id_str_halves by exact H.
  assert (Hq : 0 <= id / 1000000) by (apply Z.div_pos; lia).
  assert (Hr : 0 <= id mod 1000000 < 1000000) by (apply Z.mod_pos_bound; lia).
  rewrite !fmt_0d_nonneg by lia.
  unfold Serial.parseBack.
  change ("-" ++ ?t)%string with (String "-" t).
  rewrite split_dash_app by apply no_dash_zfill.
  rewrite !parse_zfill. rewrite !Z2N.id by lia.
  f_equal. rewrite (Z.div_mod id 1000000) at 3 by lia. lia.
Qed.

(** The formatting is injective on non-negative ids. *)
Lemma unique_id_str_inj a b :
  0 <= a -> 0 <= b -> _unique_id_str a = _unique_id_str b -> a = b.
Proof.
  intros Ha Hb E.
  apply (f_equal Serial.parseBack) in E.
  rewrite !parseBack_unique_id_str in E by assumption.
  congruence.
Qed.

(** C9 - For every 32-bit unsigned id, the serial-number string is the
    quotient by 1,000,000 zero-padded to 4 digits, a dash, and the remainder
    zero-padded to 6 digits, and reading that string back gives the id;
    the id 1234567890 is written "1234-567890". *)
Theorem serial_number_round_trip (id : Z) :
  0 <= id < 2 ^ 32 ->
  _unique_id_str id =
    (Py.fmt_0d 4 (id / 1000000) ++ "-" ++ Py.fmt_0d 6 (id mod 1000000))%string
  /\ Serial.parseBack (_unique_id_str id) = Some id
  /\ _unique_id_str 1234567890 = "1234-567890".
Proof.
  intros [H _]. split; [|split].
  - now apply unique_id_str_halves.
  - now apply parseBack_unique_id_str.
  - reflexivity.
Qed.

Lemma serial_number_round_trip_witness :
  0 <= 627008473 < 2 ^ 32
  /\ _unique_id_str 627008473 = "0627-008473"
  /\ Serial.parseBack "0627-008473" = Some 627008473.
Proof.
  assert (H : 0 <= 627008473 < 2 ^ 32) by lia.
  split; [exact H|].
  split; [reflexivity|].
  exact (proj1 (proj2 (serial_number_round_trip 627008473 H))).
Defined.

End SerialNumbers.

(* ===================================================================== *)
(** * Properties of the driver *)
(* ===================================================================== *)

Section Lists.

Lemma sum_from l a : fold_left Z.add l a = a + Py.sum l.
Proof.
  unfold Py.sum. revert a.
  induction l as [|x l IH]; intros a; simpl; [lia|].
  rewrite (IH (a + x)), (IH x). lia.
Qed.

Lemma sum_cons x l : Py.sum (x :: l) = x + Py.sum l.
Proof. unfold Py.sum at 1. simpl. apply sum_from. Qed.

Lemma contains_In x l : Py.contains x l = true <-> In x l.
Proof.
  unfold Py.contains. rewrite existsb_exists. split.
  - intros [y [Hy E]]. apply Z.eqb_eq in E. now subst.
  - intros H. exists x. split; [exact H | apply Z.eqb_refl].
Qed.

Lemma contains_not_In x l : Py.contains x l = false <-> ~ In x l.
Proof.
  rewrite <- contains_In. destruct (Py.contains x l); split; congruence.
Qed.

Lemma remove_present x l :
  In x l -> exists r, Py.remove x l = Some r.
Proof.
  induction l as [|y l IH]; simpl; [tauto|].
  intros H. destruct (Z.eqb_spec y x) as [->|Hne]; [eauto|].
  destruct IH as [r ->]; [destruct H; congruence | eauto].
Qed.

Lemma remove_some_In x l r : Py.remove x l = Some r -> In x l.
Proof.
  revert r. induction l as [|z l IH]; simpl; intros r; [discriminate|].
  destruct (Z.eqb_spec z x) as [->|_]; [auto|].
  destruct (Py.remove x l) as [r'|]; [|discriminate].
  intros _. right. now apply (IH r').
Qed.

Lemma remove_In x l r y :
  Py.remove x l = Some r -> In y r -> In y l.
Proof.
  revert r. induction l as [|z l IH]; simpl; intros r; [discriminate|].
  destruct (Z.eqb_spec z x) as [->|Hne].
  - intros [= <-]. auto.
  - destruct (Py.remove x l) as [r'|]; [|discriminate].
    intros [= <-] [->|H]; [auto | right; eapply IH; eauto].
Qed.

Lemma remove_other x l r y :
  Py.remove x l = Some r -> y <> x -> In y l -> In y r.
Proof.
  revert r. induction l as [|z l IH]; simpl; intros r; [discriminate|].
  destruct (Z.eqb_spec z x) as [->|Hne].
  - intros [= <-] Hy [->|H]; [congruence | exact H].
  - destruct (Py.remove x l) as [r'|]; [|discriminate].
    intros [= <-] Hy [->|H]; [left; reflexivity | right; eapply IH; eauto].
Qed.

Lemma remove_NoDup x l r :
  NoDup l -> Py.remove x l = Some r -> NoDup r /\ ~ In x r.
Proof.
  revert r. induction l as [|z l IH]; simpl; intros r Hl; [discriminate|].
  inversion Hl as [|? ? Hz Hl']; subst.
  destruct (Z.eqb_spec z x) as [->|Hne].
  - intros [= <-]. auto.
  - destruct (Py.remove x l) as [r'|] eqn:E; [|discriminate].
    intros [= <-]. destruct (IH r' Hl' eq_refl) as [Hr Hx]. split.
    + constructor; [|exact Hr]. intros H. apply Hz. eapply remove_In; eauto.
    + intros [->|H]; [congruence | auto].
Qed.

Lemma union_testbit l k :
  Z.testbit (bitmask_union l) k = existsb (fun p => Z.testbit p k) l.
Proof.
  induction l as [|p l IH]; simpl.
  - apply Z.testbit_0_l.
  - now rewrite Z.lor_spec, IH.
Qed.

(** Adding a single bit to a mask that does not have it sets it. *)
Lemma add_single_bit k u :
  0 <= k -> Z.testbit u k = false -> 2 ^ k + u = Z.lor (2 ^ k) u.
Proof.
  intros Hk Hu. rewrite <- Z.add_lor_land.
  assert (E : Z.land (2 ^ k) u = 0).
  { apply Z.bits_inj'. intros m Hm.
    rewrite Z.land_spec, Z.testbit_0_l, Z.pow2_bits_eqb by exact Hk.
    destruct (Z.eqb_spec k m) as [->|_]; [now rewrite Hu | reflexivity]. }
  rewrite E. lia.
Qed.

(** On masks that are distinct single bits, the sum is the union. *)
Lemma sum_is_union l :
  NoDup l -> Forall single_bit l -> Py.sum l = bitmask_union l.
Proof.
  induction l as [|p l IH]; intros Hnd Hsb; [reflexivity|].
  inversion Hnd as [|? ? Hp Hnd']; subst.
  inversion Hsb as [|? ? [k [Hk ->]] Hsb']; subst.
  rewrite sum_cons, IH by assumption. simpl.
  apply add_single_bit; [exact Hk|].
  rewrite union_testbit. apply not_true_is_false. intros H.
  apply existsb_exists in H as [q [Hq Hbit]].
  rewrite Forall_forall in Hsb'. destruct (Hsb' q Hq) as [j [Hj ->]].
  rewrite Z.pow2_bits_eqb in Hbit by exact Hj.
  apply Z.eqb_eq in Hbit. subst j. contradiction.
Qed.

Lemma contains_snoc x l p :
  Py.contains x (l ++ [p]) = Py.contains x l || (x =? p).
Proof.
  unfold Py.contains. rewrite existsb_app. simpl. now rewrite orb_false_r.
Qed.

Lemma contains_remove x l r p :
  NoDup l -> Py.remove p l = Some r ->
  Py.contains x r = Py.contains x l && negb (x =? p).
Proof.
  intros Hnd Hr. destruct (remove_NoDup p l r Hnd Hr) as [_ Hp].
  destruct (Z.eqb_spec x p) as [->|Hne]; simpl.
  - rewrite andb_false_r. now apply contains_not_In.
  - rewrite andb_true_r.
    destruct (Py.contains x l) eqn:E.
    + apply contains_In. apply contains_In in E. eapply remove_other; eauto.
    + apply contains_not_In. apply contains_not_In in E.
      intros H. apply E. eapply remove_In; eauto.
Qed.

End Lists.

Section Properties.

Context {C : Constants} {W : Type} {A : Api W}.

(** Unfolds one layer of driver code down to the binding calls. *)
Ltac run :=
  unfold _interface_configuration, _raise_error_if_negative, void, attempt,
    bind, ret, raise, attr, assign, api in *; simpl in *.

(** Case analysis on the answer of a binding call. *)
Ltac answer f :=
  let r := fresh "r" in
  let e := fresh "e" in
  let w := fresh "w" in
  let E := fresh "E" in
  destruct f as [[r|e] w] eqn:E; simpl in *.

(** Closes the cases of a write that issued its one call. *)
Ltac one_call :=
  match goal with
  | E : _ = (Ok ?r, _) |- _ =>
      let Hr := fresh "Hr" in
      destruct (r <? 0) eqn:Hr; intros [= <- <-]; right;
      eexists; eexists; simpl; (split; [reflexivity|]);
      unfold replay; rewrite E; (split; [reflexivity|]); simpl; rewrite Hr; auto
  | E : _ = (Raise _, _) |- _ =>
      intros [= <- <-]; right;
      eexists; eexists; simpl; (split; [reflexivity|]);
      unfold replay; rewrite E; (split; [reflexivity|]); simpl; auto
  end.

(** C4 - A shadow-cache write ([configured_gpio_outputs], [enabled_gpio_pullups],
    [gpio_set], [gpio_clear], [i2c_slave_response]) either takes its fast
    path and changes nothing, or issues exactly one binding call; when that
    call answers with a negative status the write raises the [IOError] of
    that status and leaves every attribute of the object as it was, and so
    it does when the binding raises: the cache only changes when the call
    succeeded. *)
Theorem failed_write_keeps_cache (wr : Write) (s s' : State W)
    (res : Result unit) :
  run_write wr s = (res, s') ->
  (res = Ok tt /\ s' = s)
  \/ exists c ans,
       calls s' = calls s ++ [c]
       /\ replay c (world s) = Some (ans, world s')
       /\ match ans with
          | Ok r =>
              if r <? 0
              then res = Raise (IOError r (aa_status_string r))
                   /\ self s' = self s
              else res = Ok tt
          | Raise e => res = Raise e /\ self s' = self s
          end.
Proof.
  destruct wr as [pins|pins|pin|pin|data]; simpl;
    unfold configured_gpio_outputs_setter, enabled_gpio_pullups_setter,
      gpio_set, gpio_clear, i2c_slave_response_setter; run.
  - destruct (Py.sum pins =? Py.sum (_configured_gpio_outputs (self s))).
    + intros [= <- <-]. left. auto.
    + answer (aa_gpio_direction (handle (self s)) (Py.sum pins) (world s));
        one_call.
  - destruct (Py.sum pins =? Py.sum (_enabled_gpio_pullups (self s))).
    + intros [= <- <-]. left. auto.
    + answer (aa_gpio_pullup (handle (self s)) (Py.sum pins) (world s));
        one_call.
  - destruct (Py.contains pin (_high_gpio_outputs (self s))).
    + intros [= <- <-]. left. auto.
    + answer (aa_gpio_set (handle (self s))
                (Py.sum (_high_gpio_outputs (self s) ++ [pin])) (world s));
        one_call.
  - destruct (Py.contains pin (_high_gpio_outputs (self s))) eqn:Hin; simpl.
    + apply contains_In, remove_present in Hin as [l ->]. simpl.
      answer (aa_gpio_set (handle (self s)) (Py.sum l) (world s));
        one_call.
    + intros [= <- <-]. left. auto.
  - answer (aa_i2c_slave_set_response (handle (self s)) data (world s));
      one_call.
Qed.

Lemma pin_set_sum (HC : ConstantsOk) l : pin_set l -> Py.sum l = bitmask_union l.
Proof.
  intros [Hnd Hin]. apply sum_is_union; [exact Hnd|].
  rewrite Forall_forall in *. intros p Hp.
  pose proof (gpios_single_bit HC) as Hsb. rewrite Forall_forall in Hsb.
  apply Hsb, Hin, Hp.
Qed.

Lemma outputs_setter_same_sum s used_outputs :
  Py.sum used_outputs = Py.sum (_configured_gpio_outputs (self s)) ->
  configured_gpio_outputs_setter used_outputs s = (Ok tt, s).
Proof.
  intros E. unfold configured_gpio_outputs_setter. run.
  now rewrite E, Z.eqb_refl.
Qed.

Lemma pullups_setter_same_sum s enabled_pullups :
  Py.sum enabled_pullups = Py.sum (_enabled_gpio_pullups (self s)) ->
  enabled_gpio_pullups_setter enabled_pullups s = (Ok tt, s).
Proof.
  intros E. unfold enabled_gpio_pullups_setter. run.
  now rewrite E, Z.eqb_refl.
Qed.

Lemma outputs_setter_returns s s1 used_outputs :
  configured_gpio_outputs_setter used_outputs s = (Ok tt, s1) ->
  Py.sum used_outputs = Py.sum (_configured_gpio_outputs (self s1)).
Proof.
  unfold configured_gpio_outputs_setter. run.
  destruct (Z.eqb_spec (Py.sum used_outputs)
              (Py.sum (_configured_gpio_outputs (self s)))) as [E|_].
  - now intros [= <-].
  - answer (aa_gpio_direction (handle (self s)) (Py.sum used_outputs) (world s));
      [destruct (r <? 0)|]; intros [= <-]; reflexivity.
Qed.

Lemma pullups_setter_returns s s1 enabled_pullups :
  enabled_gpio_pullups_setter enabled_pullups s = (Ok tt, s1) ->
  Py.sum enabled_pullups = Py.sum (_enabled_gpio_pullups (self s1)).
Proof.
  unfold enabled_gpio_pullups_setter. run.
  destruct (Z.eqb_spec (Py.sum enabled_pullups)
              (Py.sum (_enabled_gpio_pullups (self s)))) as [E|_].
  - now intros [= <-].
  - answer (aa_gpio_pullup (handle (self s)) (Py.sum enabled_pullups) (world s));
      [destruct (r <? 0)|]; intros [= <-]; reflexivity.
Qed.

(** C3 - For a set of pins handed to the setter of [configured_gpio_outputs]
    or of [enabled_gpio_pullups]: when the union of its bitmasks equals the
    union of the cached set, the setter returns without any binding call and
    without touching the state; in particular a second call with the same
    set, after the first one returned, makes no binding call, so that the
    two calls in a row do exactly what the first one does alone. *)
Theorem same_bitmask_no_transport_call (HC : ConstantsOk) (s : State W)
    (pins : list Z) :
  pin_set pins ->
  (pin_set (_configured_gpio_outputs (self s)) ->
   bitmask_union pins = bitmask_union (_configured_gpio_outputs (self s)) ->
   configured_gpio_outputs_setter pins s = (Ok tt, s))
  /\ (pin_set (_enabled_gpio_pullups (self s)) ->
      bitmask_union pins = bitmask_union (_enabled_gpio_pullups (self s)) ->
      enabled_gpio_pullups_setter pins s = (Ok tt, s))
  /\ (forall s1, configured_gpio_outputs_setter pins s = (Ok tt, s1) ->
                 configured_gpio_outputs_setter pins s1 = (Ok tt, s1))
  /\ (forall s1, enabled_gpio_pullups_setter pins s = (Ok tt, s1) ->
                 enabled_gpio_pullups_setter pins s1 = (Ok tt, s1))
  /\ (configured_gpio_outputs_setter pins ;;
      configured_gpio_outputs_setter pins) s
     = configured_gpio_outputs_setter pins s
  /\ (enabled_gpio_pullups_setter pins ;; enabled_gpio_pullups_setter pins) s
     = enabled_gpio_pullups_setter pins s.
Proof.
  intros Hpins. repeat split.
  - intros Hcur E. apply outputs_setter_same_sum.
    now rewrite !(pin_set_sum HC).
  - intros Hcur E. apply pullups_setter_same_sum.
    now rewrite !(pin_set_sum HC).
  - intros s1 H. now apply outputs_setter_same_sum, outputs_setter_returns with s.
  - intros s1 H. now apply pullups_setter_same_sum, pullups_setter_returns with s.
  - unfold bind.
    destruct (configured_gpio_outputs_setter pins s) as [[[]|e] s1] eqn:E;
      [|reflexivity].
    now apply outputs_setter_same_sum, outputs_setter_returns with s.
  - unfold bind.
    destruct (enabled_gpio_pullups_setter pins s) as [[[]|e] s1] eqn:E;
      [|reflexivity].
    now apply pullups_setter_same_sum, pullups_setter_returns with s.
Qed.

Lemma gpio_set_cases output s :
  gpio_set output s =
    let high := _high_gpio_outputs (self s) in
    if Py.contains output high then (Ok tt, s)
    else
      let mask := Py.sum (high ++ [output]) in
      outcome s (call_gpio_set (handle (self s)) mask)
        (aa_gpio_set (handle (self s)) mask (world s))
        (with_high_gpio_outputs (high ++ [output])).
Proof.
  unfold gpio_set, outcome. run.
  destruct (Py.contains output (_high_gpio_outputs (self s))); [reflexivity|].
  answer (aa_gpio_set (handle (self s))
            (Py.sum (_high_gpio_outputs (self s) ++ [output])) (world s));
    [destruct (r <? 0)|]; reflexivity.
Qed.

Lemma gpio_clear_cases output s :
  gpio_clear output s =
    let high := _high_gpio_outputs (self s) in
    match Py.remove output high with
    | None => (Ok tt, s)
    | Some new_list =>
        let mask := Py.sum new_list in
        outcome s (call_gpio_set (handle (self s)) mask)
          (aa_gpio_set (handle (self s)) mask (world s))
          (with_high_gpio_outputs new_list)
    end.
Proof.
  unfold gpio_clear, outcome. run.
  destruct (Py.contains output (_high_gpio_outputs (self s))) eqn:Hin; simpl.
  - apply contains_In, remove_present in Hin as [l ->]. simpl.
    answer (aa_gpio_set (handle (self s)) (Py.sum l) (world s));
      [destruct (r <? 0)|]; reflexivity.
  - destruct (Py.remove output (_high_gpio_outputs (self s))) as [l|] eqn:E;
      [|reflexivity].
    apply contains_not_In in Hin. exfalso. apply Hin.
    now apply remove_some_In in E.
Qed.

Lemma gpio_toggle_cases output s :
  gpio_toggle output s =
    if Py.contains output (_high_gpio_outputs (self s))
    then gpio_clear output s else gpio_set output s.
Proof.
  unfold gpio_toggle. run.
  now destruct (Py.contains output (_high_gpio_outputs (self s))).
Qed.

(** What an attempted write leaves behind. *)
Lemma attempt_outcome s c ans commit ok s' :
  attempt (fun s => outcome s c ans commit) s = (Ok ok, s') ->
  calls s' = calls s ++ [c]
  /\ (ok = true /\ self s' = commit (self s)
      \/ ok = false /\ self s' = self s).
Proof.
  unfold attempt, outcome.
  destruct ans as [[r|e] w']; [destruct (r <? 0)|];
    intros [= <- <-]; simpl; auto.
Qed.

(** One attempted drive: the list of high pins stays duplicate-free, the
    configured outputs stay, and the level of every pin is as the drive
    asked when it succeeded on that pin, and as before otherwise. *)
Lemma drive_level d s ok s' pin :
  NoDup (_high_gpio_outputs (self s)) ->
  attempt (drive d) s = (Ok ok, s') ->
  NoDup (_high_gpio_outputs (self s'))
  /\ _configured_gpio_outputs (self s') = _configured_gpio_outputs (self s)
  /\ Py.contains pin (_high_gpio_outputs (self s')) =
       level_after pin [d] [ok] (Py.contains pin (_high_gpio_outputs (self s))).
Proof.
  intros Hnd.
  assert (Hset : forall p, Py.contains p (_high_gpio_outputs (self s)) = false ->
            attempt (gpio_set p) s = (Ok ok, s') ->
            NoDup (_high_gpio_outputs (self s'))
            /\ _configured_gpio_outputs (self s') = _configured_gpio_outputs (self s)
            /\ Py.contains pin (_high_gpio_outputs (self s')) =
                 if ok && (p =? pin) then true
                 else Py.contains pin (_high_gpio_outputs (self s))).
  { intros p Hp H. unfold attempt in H. rewrite gpio_set_cases in H.
    cbv zeta in H. rewrite Hp in H.
    apply (attempt_outcome s _ _ _ ok s') in H as [_ [[-> ->]|[-> ->]]]; simpl.
    - split; [|split; [reflexivity|]].
      + apply NoDup_app; [exact Hnd | repeat constructor; simpl; tauto |].
        intros x Hx [<-|[]]. now apply contains_not_In in Hp.
      + rewrite contains_snoc, (Z.eqb_sym p pin).
        destruct (pin =? p); [apply orb_true_r | apply orb_false_r].
    - auto. }
  assert (Hclr : forall p, Py.contains p (_high_gpio_outputs (self s)) = true ->
            attempt (gpio_clear p) s = (Ok ok, s') ->
            NoDup (_high_gpio_outputs (self s'))
            /\ _configured_gpio_outputs (self s') = _configured_gpio_outputs (self s)
            /\ Py.contains pin (_high_gpio_outputs (self s')) =
                 if ok && (p =? pin) then false
                 else Py.contains pin (_high_gpio_outputs (self s))).
  { intros p Hp H. unfold attempt in H. rewrite gpio_clear_cases in H.
    cbv zeta in H.
    destruct (remove_present p _ (proj1 (contains_In _ _) Hp)) as [l Hl].
    rewrite Hl in H.
    apply (attempt_outcome s _ _ _ ok s') in H as [_ [[-> ->]|[-> ->]]]; simpl.
    - split; [|split; [reflexivity|]].
      + exact (proj1 (remove_NoDup p _ l Hnd Hl)).
      + rewrite (contains_remove pin _ l p Hnd Hl), (Z.eqb_sym p pin).
        destruct (pin =? p); [apply andb_false_r | apply andb_true_r].
    - auto. }
  destruct d as [p|p|p]; simpl; intros H.
  - destruct (Py.contains p (_high_gpio_outputs (self s))) eqn:Hp.
    + unfold attempt in H. rewrite gpio_set_cases in H. cbv zeta in H.
      rewrite Hp in H. injection H as <- <-.
      split; [exact Hnd | split; [reflexivity|]]. simpl.
      destruct (Z.eqb_spec p pin) as [<-|_]; [now rewrite Hp | reflexivity].
    + now apply Hset.
  - destruct (Py.contains p (_high_gpio_outputs (self s))) eqn:Hp.
    + now apply Hclr.
    + unfold attempt in H. rewrite gpio_clear_cases in H. cbv zeta in H.
      destruct (Py.remove p (_high_gpio_outputs (self s))) as [l|] eqn:Hl.
      * apply contains_not_In in Hp. exfalso. apply Hp.
        now apply remove_some_In in Hl.
      * injection H as <- <-.
        split; [exact Hnd | split; [reflexivity|]]. simpl.
        destruct (Z.eqb_spec p pin) as [<-|_]; [now rewrite Hp | reflexivity].
  - unfold attempt in H. rewrite gpio_toggle_cases in H.
    destruct (Py.contains p (_high_gpio_outputs (self s))) eqn:Hp.
    + destruct (Hclr p Hp H) as [H1 [H2 H3]].
      split; [exact H1 | split; [exact H2|]]. rewrite H3.
      destruct ok; simpl; [|reflexivity].
      destruct (Z.eqb_spec p pin) as [<-|_]; [now rewrite Hp | reflexivity].
    + destruct (Hset p Hp H) as [H1 [H2 H3]].
      split; [exact H1 | split; [exact H2|]]. rewrite H3.
      destruct ok; simpl; [|reflexivity].
      destruct (Z.eqb_spec p pin) as [<-|_]; [now rewrite Hp | reflexivity].
Qed.

Lemma attempt_returns {T} (m : M W T) s e s' : attempt m s <> (Raise e, s').
Proof. unfold attempt. now destruct (m s) as [[x|e'] s1]. Qed.

(** A run of attempted drives: the level of a pin is the one its last
    successful drive asked for. *)
Lemma drives_level ds : forall s oks s' pin,
  NoDup (_high_gpio_outputs (self s)) ->
  drives ds s = (Ok oks, s') ->
  NoDup (_high_gpio_outputs (self s'))
  /\ _configured_gpio_outputs (self s') = _configured_gpio_outputs (self s)
  /\ Py.contains pin (_high_gpio_outputs (self s')) =
       level_after pin ds oks (Py.contains pin (_high_gpio_outputs (self s))).
Proof.
  induction ds as [|d ds IH]; intros s oks s' pin Hnd; simpl.
  - unfold ret. intros [= <- <-]. auto.
  - unfold bind at 1.
    destruct (attempt (drive d) s) as [[ok|e] s1] eqn:E1;
      [|now apply attempt_returns in E1].
    unfold bind at 1.
    destruct (drives ds s1) as [[oks1|e] s2] eqn:E2; [|discriminate].
    unfold ret. intros [= <- <-].
    destruct (drive_level d s ok s1 pin Hnd E1) as [H1 [H2 H3]].
    destruct (IH s1 oks1 s2 pin H1 E2) as [K1 [K2 K3]].
    split; [exact K1 | split; [congruence|]].
    rewrite K3, H3. reflexivity.
Qed.

Lemma gpio_get_output output s :
  Py.contains output (_configured_gpio_outputs (self s)) = true ->
  gpio_get output s =
    (Ok (Py.contains output (_high_gpio_outputs (self s))), s).
Proof. intros H. unfold gpio_get. run. now rewrite H. Qed.

Lemma gpio_get_input output s :
  Py.contains output (_configured_gpio_outputs (self s)) = false ->
  gpio_get output s =
    let c := call_gpio_change (handle (self s)) 32 in
    let after w' :=
      {| world := w'; calls := calls s ++ [c]; self := self s |} in
    match aa_gpio_change (handle (self s)) 32 (world s) with
    | (Ok bitmask, w') =>
        if bitmask <? 0
        then (Raise (IOError bitmask (aa_status_string bitmask)), after w')
        else (Ok (Py.contains output
                    (filter (fun pin => negb (Z.land bitmask pin =? 0)) gpios)),
              after w')
    | (Raise e, w') => (Raise e, after w')
    end.
Proof.
  intros H. unfold gpio_get, gpio_poll. run. rewrite H.
  answer (aa_gpio_change (handle (self s)) 32 (world s));
    [destruct (r <? 0)|]; reflexivity.
Qed.

Lemma contains_filter x f l :
  Py.contains x (filter f l) = Py.contains x l && f x.
Proof.
  induction l as [|y l IH]; simpl; [reflexivity|].
  destruct (f y) eqn:Hy; simpl; rewrite IH;
    destruct (Z.eqb_spec x y) as [->|_]; simpl; rewrite ?Hy;
    auto using andb_false_r, andb_true_r.
Qed.

(** C2 - [gpio_get] of a pin that is in the cached list of configured
    outputs returns whether the pin is in the cached list of high outputs,
    which is the level the last successful [gpio_set] / [gpio_clear] /
    [gpio_toggle] of that pin asked for, and makes no binding call.  On a pin
    that is not a configured output it makes exactly one [aa_gpio_change]
    call (the poll, with timeout 32) and returns whether the pin is among the
    pins that call reports high, whatever the cache holds. *)
Theorem gpio_get_cached_or_polled (s : State W) (pin : Z) :
  (Py.contains pin (_configured_gpio_outputs (self s)) = true ->
     gpio_get pin s = (Ok (Py.contains pin (_high_gpio_outputs (self s))), s)
     /\ forall s0 ds oks,
          NoDup (_high_gpio_outputs (self s0)) ->
          drives ds s0 = (Ok oks, s) ->
          gpio_get pin s =
            (Ok (level_after pin ds oks
                   (Py.contains pin (_high_gpio_outputs (self s0)))), s))
  /\ (Py.contains pin (_configured_gpio_outputs (self s)) = false ->
        let c := call_gpio_change (handle (self s)) 32 in
        calls (snd (gpio_get pin s)) = calls s ++ [c]
        /\ self (snd (gpio_get pin s)) = self s
        /\ forall bitmask w',
             aa_gpio_change (handle (self s)) 32 (world s) = (Ok bitmask, w') ->
             0 <= bitmask ->
             let polled :=
               filter (fun p => negb (Z.land bitmask p =? 0)) gpios in
             gpio_get pin s =
               (Ok (Py.contains pin polled),
                {| world := w'; calls := calls s ++ [c]; self := self s |})
             /\ (In pin gpios ->
                 Py.contains pin polled = negb (Z.land bitmask pin =? 0))).
Proof.
  split.
  - intros Hout. split; [now apply gpio_get_output|].
    intros s0 ds oks Hnd Hrun. rewrite gpio_get_output by exact Hout.
    destruct (drives_level ds s0 oks s pin Hnd Hrun) as [_ [_ ->]].
    reflexivity.
  - intros Hin c. rewrite gpio_get_input by exact Hin. cbv zeta.
    fold c. split; [|split].
    + destruct (aa_gpio_change (handle (self s)) 32 (world s)) as [[r|e] w1];
        [destruct (r <? 0)|]; reflexivity.
    + destruct (aa_gpio_change (handle (self s)) 32 (world s)) as [[r|e] w1];
        [destruct (r <? 0)|]; reflexivity.
    + intros bitmask w' -> Hb.
      destruct (Z.ltb_spec bitmask 0); [lia|]. split; [reflexivity|].
      intros Hp. rewrite contains_filter.
      apply contains_In in Hp. now rewrite Hp.
Qed.

(** ** The configuration state machine *)

Lemma config_neq (HC : ConstantsOk) :
  CONFIG_GPIO_ONLY <> CONFIG_SPI_GPIO /\ CONFIG_GPIO_ONLY <> CONFIG_GPIO_I2C
  /\ CONFIG_GPIO_ONLY <> CONFIG_SPI_I2C /\ CONFIG_GPIO_ONLY <> CONFIG_QUERY
  /\ CONFIG_SPI_GPIO <> CONFIG_GPIO_I2C /\ CONFIG_SPI_GPIO <> CONFIG_SPI_I2C
  /\ CONFIG_SPI_GPIO <> CONFIG_QUERY /\ CONFIG_GPIO_I2C <> CONFIG_SPI_I2C
  /\ CONFIG_GPIO_I2C <> CONFIG_QUERY /\ CONFIG_SPI_I2C <> CONFIG_QUERY.
Proof.
  pose proof (config_distinct HC) as H.
  repeat match goal with
         | H : NoDup (_ :: _) |- _ => inversion H; clear H; subst
         end.
  simpl in *. intuition congruence.
Qed.

(** Decides the comparisons between configuration constants. *)
Ltac configs HC :=
  let N := fresh "N" in
  pose proof (config_neq HC) as N;
  repeat match goal with
         | |- context [?a =? ?b] =>
             destruct (Z.eqb_spec a b); subst; simpl; try tauto;
             try (exfalso; intuition congruence)
         end;
  try (simpl; intuition congruence).

Lemma valid_config_cases c :
  valid_config c ->
  c = CONFIG_GPIO_ONLY \/ c = CONFIG_SPI_GPIO
  \/ c = CONFIG_GPIO_I2C \/ c = CONFIG_SPI_I2C.
Proof. unfold valid_config. simpl. intuition. Qed.

(** The new configuration the setter of [enable_i2c] computes has the I2C
    facet asked for and the SPI facet of the current one. *)
Lemma i2c_new_config_facets (HC : ConstantsOk) value c :
  valid_config c ->
  i2c_facet (i2c_new_config value c) = value
  /\ spi_facet (i2c_new_config value c) = spi_facet c
  /\ valid_config (i2c_new_config value c).
Proof.
  intros Hc. unfold i2c_facet, spi_facet, i2c_new_config, valid_config.
  apply valid_config_cases in Hc.
  destruct Hc as [-> | [-> | [-> | ->]]]; destruct value; simpl; configs HC.
Qed.

(** The same for the setter of [enable_spi], with the facets exchanged. *)
Lemma spi_new_config_facets (HC : ConstantsOk) value c :
  valid_config c ->
  spi_facet (spi_new_config value c) = value
  /\ i2c_facet (spi_new_config value c) = i2c_facet c
  /\ valid_config (spi_new_config value c).
Proof.
  intros Hc. unfold i2c_facet, spi_facet, spi_new_config, valid_config.
  apply valid_config_cases in Hc.
  destruct Hc as [-> | [-> | [-> | ->]]]; destruct value; simpl; configs HC.
Qed.

Lemma valid_config_not_query (HC : ConstantsOk) c :
  valid_config c -> c <> CONFIG_QUERY /\ 0 <= c.
Proof.
  intros Hc. split.
  - apply valid_config_cases in Hc. pose proof (config_neq HC).
    intuition congruence.
  - pose proof (config_nonneg HC) as H. rewrite Forall_forall in H.
    now apply H.
Qed.

Lemma interface_configuration_cases value s :
  _interface_configuration value s =
    let c := call_configure (handle (self s)) value in
    let after w' :=
      {| world := w'; calls := calls s ++ [c]; self := self s |} in
    match aa_configure (handle (self s)) value (world s) with
    | (Ok r, w') =>
        if r <? 0 then (Raise (IOError r (aa_status_string r)), after w')
        else (Ok r, after w')
    | (Raise e, w') => (Raise e, after w')
    end.
Proof.
  run. answer (aa_configure (handle (self s)) value (world s));
    [destruct (r <? 0)|]; reflexivity.
Qed.

(** A run of a facet setter against a binding that behaves as a
    configuration register: one query, then at most one change, to the
    configuration [f] computes from the current one. *)
Lemma setter_run (HC : ConstantsOk) reg (HR : ConfigRegister reg) f s res s' :
  (forall c, valid_config c -> valid_config (f c)) ->
  valid_config (reg (world s)) ->
  setter_with f s = (res, s') ->
  let c := reg (world s) in
  let h := handle (self s) in
  self s' = self s
  /\ exists l,
       calls s' = calls s ++ call_configure h CONFIG_QUERY :: l
       /\ (l = [] \/ (l = [call_configure h (f c)] /\ f c <> c))
       /\ (res = Ok tt ->
           reg (world s') = f c /\ (f c = c -> l = []) /\ (f c <> c -> l <> [])).
Proof.
  intros Hf Hc. unfold setter_with. unfold bind at 1.
  rewrite interface_configuration_cases. cbv zeta.
  answer (aa_configure (handle (self s)) CONFIG_QUERY (world s)).
  - destruct (Z.ltb_spec r 0) as [Hneg|Hpos].
    + intros [= <- <-]. simpl. split; [reflexivity|].
      exists []. split; [reflexivity|]. split; [now left | discriminate].
    + destruct (query_reads reg HR _ _ _ _ E Hpos) as [-> Hw].
      destruct (Z.eqb_spec (f (reg (world s))) (reg (world s))) as [Heq|Hne];
        simpl.
      * unfold ret. intros [= <- <-]. simpl. split; [reflexivity|].
        exists []. split; [reflexivity|]. split; [now left|].
        intros _. rewrite Hw. split; [now rewrite Heq | tauto].
      * unfold bind. rewrite interface_configuration_cases. simpl.
        destruct (valid_config_not_query HC _ (Hf _ Hc)) as [Hq _].
        answer (aa_configure (handle (self s)) (f (reg (world s))) w);
          [destruct (Z.ltb_spec r 0) as [Hneg2|Hpos2]|];
          unfold ret; intros [= <- <-]; simpl; (split; [reflexivity|]);
          exists [call_configure (handle (self s)) (f (reg (world s)))];
          rewrite <- app_assoc; simpl; (split; [reflexivity|]);
          (split; [now right|]); try discriminate.
        intros _. rewrite (change_writes reg HR _ _ _ _ _ Hq E0 Hpos2).
        split; [reflexivity | split; [tauto | discriminate]].
  - intros [= <- <-]. simpl. split; [reflexivity|].
    exists []. split; [reflexivity|]. split; [now left | discriminate].
Qed.

(** A facet setter on an adapter that answers: it returns, with the
    configuration [f] computes from the current one in the register. *)
Lemma setter_answers (HC : ConstantsOk) reg ok f s :
  ConfigAnswers reg ok (handle (self s)) ->
  ok (world s) ->
  valid_config (reg (world s)) ->
  (forall c, valid_config c -> valid_config (f c)) ->
  exists s',
    setter_with f s = (Ok tt, s')
    /\ reg (world s') = f (reg (world s))
    /\ ok (world s')
    /\ self s' = self s.
Proof.
  intros HA Hok Hc Hf.
  destruct (query_answered reg ok _ HA _ Hok) as [w1 [E1 [R1 O1]]].
  destruct (valid_config_not_query HC _ Hc) as [_ Hnn].
  unfold setter_with. unfold bind at 1.
  rewrite interface_configuration_cases. cbv zeta. rewrite E1.
  destruct (Z.ltb_spec (reg (world s)) 0); [lia|].
  destruct (Z.eqb_spec (f (reg (world s))) (reg (world s))) as [Heq|Hne];
    simpl.
  - eexists. split; [reflexivity|]. simpl. rewrite R1, Heq. auto.
  - destruct (change_answered reg ok _ HA (f (reg (world s))) w1 O1
                (Hf _ Hc)) as [r [w2 [E2 [Hr [R2 O2]]]]].
    unfold bind. rewrite interface_configuration_cases. simpl. rewrite E2.
    destruct (Z.ltb_spec r 0); [lia|].
    eexists. split; [reflexivity|]. simpl. auto.
Qed.

(** C1 - From every one of the four configurations and for every boolean:
    against a binding that behaves as a configuration register, the setter of
    [enable_spi] that returns leaves the I2C facet as it was and sets the SPI
    facet as asked, and the setter of [enable_i2c] leaves the SPI facet and
    sets the I2C facet; and on an adapter that answers, each setter does
    return, with that outcome.  In particular, on an adapter that answers,
    from [CONFIG_GPIO_I2C] the call [enable_spi = True] returns with the
    configuration [CONFIG_SPI_I2C] and [enable_spi = False] after it returns
    with [CONFIG_GPIO_I2C] again. *)
Theorem setters_keep_other_facet (HC : ConstantsOk) reg
    (HR : ConfigRegister reg) (s : State W) (value : bool) :
  valid_config (reg (world s)) ->
  (forall s', enable_spi_setter value s = (Ok tt, s') ->
     i2c_facet (reg (world s')) = i2c_facet (reg (world s))
     /\ spi_facet (reg (world s')) = value
     /\ valid_config (reg (world s')))
  /\ (forall s', enable_i2c_setter value s = (Ok tt, s') ->
        spi_facet (reg (world s')) = spi_facet (reg (world s))
        /\ i2c_facet (reg (world s')) = value
        /\ valid_config (reg (world s')))
  /\ (reg (world s) = CONFIG_GPIO_I2C ->
      forall s1 s2,
        enable_spi_setter true s = (Ok tt, s1) ->
        enable_spi_setter false s1 = (Ok tt, s2) ->
        reg (world s1) = CONFIG_SPI_I2C /\ reg (world s2) = CONFIG_GPIO_I2C)
  /\ (forall ok,
        ConfigAnswers reg ok (handle (self s)) ->
        ok (world s) ->
        (exists s',
           enable_spi_setter value s = (Ok tt, s')
           /\ i2c_facet (reg (world s')) = i2c_facet (reg (world s))
           /\ spi_facet (reg (world s')) = value)
        /\ (exists s',
              enable_i2c_setter value s = (Ok tt, s')
              /\ spi_facet (reg (world s')) = spi_facet (reg (world s))
              /\ i2c_facet (reg (world s')) = value)
        /\ (reg (world s) = CONFIG_GPIO_I2C ->
            exists s1 s2,
              enable_spi_setter true s = (Ok tt, s1)
              /\ reg (world s1) = CONFIG_SPI_I2C
              /\ enable_spi_setter false s1 = (Ok tt, s2)
              /\ reg (world s2) = CONFIG_GPIO_I2C)).
Proof.
  intros Hc.
  assert (Hspi : forall v s0 s', valid_config (reg (world s0)) ->
            enable_spi_setter v s0 = (Ok tt, s') ->
            reg (world s') = spi_new_config v (reg (world s0))).
  { intros v s0 s' Hv H.
    apply (setter_run HC reg HR (spi_new_config v)) in H as [_ [l [_ [_ H]]]];
      [now apply H | | exact Hv].
    intros c Hcv. now apply spi_new_config_facets. }
  assert (Hi2c : forall v s0 s', valid_config (reg (world s0)) ->
            enable_i2c_setter v s0 = (Ok tt, s') ->
            reg (world s') = i2c_new_config v (reg (world s0))).
  { intros v s0 s' Hv H.
    apply (setter_run HC reg HR (i2c_new_config v)) in H as [_ [l [_ [_ H]]]];
      [now apply H | | exact Hv].
    intros c Hcv. now apply i2c_new_config_facets. }
  assert (Hfs : forall v c, valid_config c -> valid_config (spi_new_config v c))
    by (intros v c Hcv; now apply spi_new_config_facets).
  assert (Hfi : forall v c, valid_config c -> valid_config (i2c_new_config v c))
    by (intros v c Hcv; now apply i2c_new_config_facets).
  split; [|split; [|split]].
  - intros s' H. rewrite (Hspi _ _ _ Hc H).
    destruct (spi_new_config_facets HC value _ Hc) as [H1 [H2 H3]]. auto.
  - intros s' H. rewrite (Hi2c _ _ _ Hc H).
    destruct (i2c_new_config_facets HC value _ Hc) as [H1 [H2 H3]]. auto.
  - intros Hstart s1 s2 H1 H2.
    pose proof (Hspi _ _ _ Hc H1) as E1. rewrite Hstart in E1.
    assert (E1' : reg (world s1) = CONFIG_SPI_I2C).
    { rewrite E1. unfold spi_new_config. configs HC. }
    split; [exact E1'|].
    assert (Hv1 : valid_config (reg (world s1))).
    { rewrite E1'. unfold valid_config. simpl. tauto. }
    rewrite (Hspi _ _ _ Hv1 H2), E1'. unfold spi_new_config. configs HC.
  - intros ok HA Hok. split; [|split].
    + destruct (setter_answers HC reg ok (spi_new_config value) s HA Hok Hc
                  (Hfs value)) as [s' [Hrun [Hreg _]]].
      exists s'. split; [exact Hrun|]. rewrite Hreg.
      destruct (spi_new_config_facets HC value _ Hc) as [H1 [H2 _]]. auto.
    + destruct (setter_answers HC reg ok (i2c_new_config value) s HA Hok Hc
                  (Hfi value)) as [s' [Hrun [Hreg _]]].
      exists s'. split; [exact Hrun|]. rewrite Hreg.
      destruct (i2c_new_config_facets HC value _ Hc) as [H1 [H2 _]]. auto.
    + intros Hstart.
      destruct (setter_answers HC reg ok (spi_new_config true) s HA Hok Hc
                  (Hfs true)) as [s1 [Hrun1 [Hreg1 [Hok1 Hself1]]]].
      assert (E1 : reg (world s1) = CONFIG_SPI_I2C).
      { rewrite Hreg1, Hstart. unfold spi_new_config. configs HC. }
      assert (Hv1 : valid_config (reg (world s1))).
      { rewrite E1. unfold valid_config. simpl. tauto. }
      assert (HA1 : ConfigAnswers reg ok (handle (self s1)))
        by (rewrite Hself1; exact HA).
      destruct (setter_answers HC reg ok (spi_new_config false) s1 HA1 Hok1
                  Hv1 (Hfs false)) as [s2 [Hrun2 [Hreg2 _]]].
      exists s1, s2. split; [exact Hrun1|]. split; [exact E1|].
      split; [exact Hrun2|].
      rewrite Hreg2, E1. unfold spi_new_config. configs HC.
Qed.


(** ** Opening a device *)

(** [find_devices] leaves the object alone and only enumerates: one call
    for the count, at most one for the sized result. *)
Lemma find_devices_frame s res s1 :
  find_devices s = (res, s1) ->
  self s1 = self s
  /\ exists l, calls s1 = calls s ++ l
       /\ (l = [call_find_devices]
           \/ exists n, l = [call_find_devices; call_find_devices_ext n]).
Proof.
  unfold find_devices. run.
  answer (aa_find_devices (world s)).
  - destruct (r <? 0); simpl.
    + intros [= <- <-]. simpl. eauto.
    + destruct (r =? 0); simpl.
      * intros [= <- <-]. simpl. eauto.
      * answer (aa_find_devices_ext r w).
        -- destruct r0 as [[n ports] ids]. simpl.
           destruct (n <? 0); simpl; [|destruct (n =? 0); simpl];
             intros [= <- <-]; simpl; (split; [reflexivity|]);
             exists [call_find_devices; call_find_devices_ext r];
             rewrite <- app_assoc; simpl; eauto.
        -- intros [= <- <-]. simpl. split; [reflexivity|].
           exists [call_find_devices; call_find_devices_ext r].
           rewrite <- app_assoc. simpl. eauto.
  - intros [= <- <-]. simpl. eauto.
Qed.

Lemma scan_no_match devices sn d0 :
  (forall d, In d devices -> dev_serial_number d <> sn) ->
  fst (scan devices sn d0) = false.
Proof.
  revert d0. induction devices as [|x rest IH]; intros d0 H; simpl;
    [reflexivity|].
  destruct (String.eqb_spec (dev_serial_number x) sn) as [E|_].
  - exfalso. apply (H x); [now left | exact E].
  - apply IH. intros d Hd. apply H. now right.
Qed.

Lemma scan_first_match pre d post sn d0 :
  (forall x, In x pre -> dev_serial_number x <> sn) ->
  dev_serial_number d = sn ->
  scan (pre ++ d :: post) sn d0 = (true, Some d).
Proof.
  revert d0. induction pre as [|x pre IH]; intros d0 Hpre Hd; simpl.
  - now rewrite <- Hd, String.eqb_refl.
  - destruct (String.eqb_spec (dev_serial_number x) sn) as [E|_].
    + exfalso. apply (Hpre x); [now left | exact E].
    + apply IH; [|exact Hd]. intros y Hy. apply Hpre. now right.
Qed.

(** A constructor call that returns has opened the port once and forced
    the configuration once. *)
Lemma new_returns port s s' :
  new port s = (Ok tt, s') ->
  calls s' = calls s ++ [call_open_ext port;
                         call_configure (handle (self s')) CONFIG_SPI_I2C]
  /\ exists r, handle (self s') = Some r /\ 0 <= r.
Proof.
  unfold new, __init__. run.
  answer (aa_open_ext port (world s)); [|discriminate].
  destruct r as [r ver]. simpl.
  destruct (Z.ltb_spec r 0); simpl; [discriminate|].
  destruct ((if firmware (version ver) <? fw_req_by_sw (version ver)
             then ERR_INCOMPATIBLE_DEVICE
             else if software (version ver) <? sw_req_by_fw (version ver)
                  then ERR_INCOMPATIBLE_LIBRARY else r) <? 0);
    simpl; [discriminate|].
  answer (aa_configure (Some r) CONFIG_SPI_I2C w); [|discriminate].
  destruct (r0 <? 0); simpl; [discriminate|].
  intros [= <-]. simpl. rewrite <- app_assoc. simpl. eauto.
Qed.

(** C10 - When the port opens (a non-negative handle comes back) and the
    version gate fails, the constructor raises [ERR_INCOMPATIBLE_DEVICE]
    (firmware older than the library requires) or else
    [ERR_INCOMPATIBLE_LIBRARY]; the only binding call made is the open call:
    no close call is issued, the handle stays acquired and is still stored in
    the object.  [open] by port does nothing more. *)
Theorem version_gate_leaves_handle_open (HC : ConstantsOk) (s : State W)
    (port r : Z) (ver : AardvarkExt) (w' : W) :
  aa_open_ext port (world s) = (Ok (r, ver), w') ->
  0 <= r ->
  firmware (version ver) < fw_req_by_sw (version ver)
  \/ software (version ver) < sw_req_by_fw (version ver) ->
  let code :=
    if firmware (version ver) <? fw_req_by_sw (version ver)
    then ERR_INCOMPATIBLE_DEVICE else ERR_INCOMPATIBLE_LIBRARY in
  exists s',
    new port s = (Raise (IOError code (aa_status_string code)), s')
    /\ calls s' = calls s ++ [call_open_ext port]
    /\ filter is_close (calls s') = filter is_close (calls s)
    /\ world s' = w'
    /\ handle (self s') = Some r
    /\ open (Some port) None s = new port s
    /\ (port = 0 -> open None None s = new port s).
Proof.
  intros Hopen Hr Hgate code.
  assert (Hcode : code < 0).
  { unfold code. destruct (_ <? _);
      [apply (err_incompatible_device_neg HC)
      | apply (err_incompatible_library_neg HC)]. }
  assert (Hret : (if firmware (version ver) <? fw_req_by_sw (version ver)
                  then ERR_INCOMPATIBLE_DEVICE
                  else if software (version ver) <? sw_req_by_fw (version ver)
                       then ERR_INCOMPATIBLE_LIBRARY else r) = code).
  { unfold code.
    destruct (Z.ltb_spec (firmware (version ver)) (fw_req_by_sw (version ver)));
      [reflexivity|].
    destruct (Z.ltb_spec (software (version ver)) (sw_req_by_fw (version ver)));
      [reflexivity | lia]. }
  eexists. split; [|split; [|split; [|split; [|split; [|split]]]]].
  - unfold new, __init__. run. rewrite Hopen. simpl.
    destruct (Z.ltb_spec r 0); [lia|]. simpl.
    rewrite Hret. destruct (Z.ltb_spec code 0); [|lia]. reflexivity.
  - reflexivity.
  - simpl. rewrite filter_app. simpl. now rewrite app_nil_r.
  - reflexivity.
  - reflexivity.
  - reflexivity.
  - intros ->. reflexivity.
Qed.

(** C7 - Opening by serial number, once the enumeration has come back:
    when no enumerated device has the serial number, [open] raises the
    [IOError] of [ERR_UNABLE_TO_OPEN] right after the enumeration, with no
    open call; when the first device with the serial number is opened and the
    adapter then reports a unique id that reads differently, [open] closes the
    session and raises the same error, the whole run being one enumeration,
    one open call, the forced configuration, the id query and the close. *)
Theorem open_by_serial_number (HC : ConstantsOk) (s s1 : State W)
    (port : option Z) (sn : string) (devices : list Device) :
  find_devices s = (Ok devices, s1) ->
  let not_found :=
    IOError ERR_UNABLE_TO_OPEN (aa_status_string ERR_UNABLE_TO_OPEN) in
  ((forall d, In d devices -> dev_serial_number d <> sn) ->
     open port (Some sn) s = (Raise not_found, s1)
     /\ exists l, calls s1 = calls s ++ l /\ filter is_open l = [])
  /\ (forall pre d post s2 u w3 r w4,
        devices = pre ++ d :: post ->
        (forall x, In x pre -> dev_serial_number x <> sn) ->
        dev_serial_number d = sn ->
        new (dev_port d) s1 = (Ok tt, s2) ->
        aa_unique_id (handle (self s2)) (world s2) = (Ok u, w3) ->
        _unique_id_str u <> sn ->
        aa_close (handle (self s2)) w3 = (Ok r, w4) ->
        let h := handle (self s2) in
        exists l,
          open port (Some sn) s =
            (Raise not_found,
             {| world := w4; calls := calls s ++ l;
                self := with_handle None (self s2) |})
          /\ filter is_open l = [call_open_ext (dev_port d)]
          /\ filter is_close l = [call_close h]
          /\ exists enumeration,
               l = enumeration
                     ++ [call_open_ext (dev_port d);
                         call_configure h CONFIG_SPI_I2C;
                         call_unique_id h; call_close h]
               /\ (enumeration = [call_find_devices]
                   \/ exists n, enumeration
                        = [call_find_devices; call_find_devices_ext n])).
Proof.
  intros Hfind not_found.
  pose proof (err_unable_to_open_neg HC) as Hneg.
  apply Z.ltb_lt in Hneg.
  destruct (find_devices_frame _ _ _ Hfind) as [Hself [lf [Hcalls Hlf]]].
  split.
  - intros Hnone. split.
    + destruct port; unfold open, bind; rewrite Hfind;
        pose proof (scan_no_match devices sn None Hnone) as Hscan;
        destruct (scan devices sn None) as [broke d]; simpl in Hscan;
        subst broke; unfold _raise_error_if_negative; rewrite Hneg;
        reflexivity.
    + exists lf. split; [exact Hcalls|].
      destruct Hlf as [->|[n ->]]; reflexivity.
  - intros pre d post s2 u w3 r w4 -> Hpre Hd Hnew Hid Hstr Hclose h.
    destruct (new_returns _ _ _ Hnew) as [Hcalls2 _].
    apply String.eqb_neq in Hstr.
    exists (lf ++ [call_open_ext (dev_port d);
                   call_configure h CONFIG_SPI_I2C;
                   call_unique_id h; call_close h]).
    split; [|split; [|split]].
    + destruct port; unfold open, bind; rewrite Hfind,
        (scan_first_match pre d post sn None Hpre Hd); unfold ret at 1;
        unfold ret at 1; rewrite Hnew;
        unfold unique_id_str, unique_id, close, bind, attr, api, ret, assign;
        simpl; rewrite Hid; simpl; rewrite Hstr; simpl; rewrite Hclose; simpl;
        unfold _raise_error_if_negative; rewrite Hneg; unfold raise;
        rewrite Hcalls2, Hcalls; fold h; rewrite <- !app_assoc; reflexivity.
    + rewrite filter_app. destruct Hlf as [->|[n ->]]; reflexivity.
    + rewrite filter_app. destruct Hlf as [->|[n ->]]; reflexivity.
    + exists lf. split; [reflexivity | exact Hlf].
Qed.

(** ** Sessions *)

(** Splits on the answer of the next binding call, or on the next test. *)
Ltac answers :=
  repeat match goal with
         | |- context [aa_close ?h ?w] => answer (aa_close h w)
         | |- context [aa_unique_id ?h ?w] => answer (aa_unique_id h w)
         | |- context [aa_configure ?h ?v ?w] => answer (aa_configure h v w)
         | |- context [aa_i2c_slave_set_response ?h ?d ?w] =>
             answer (aa_i2c_slave_set_response h d w)
         | |- context [aa_gpio_direction ?h ?m ?w] =>
             answer (aa_gpio_direction h m w)
         | |- context [aa_gpio_pullup ?h ?m ?w] => answer (aa_gpio_pullup h m w)
         | |- context [aa_gpio_set ?h ?m ?w] => answer (aa_gpio_set h m w)
         | |- context [aa_gpio_change ?h ?t ?w] => answer (aa_gpio_change h t w)
         | |- context [match ?x with Some _ => _ | None => _ end] =>
             let E := fresh "E" in destruct x eqn:E; simpl
         | |- context [if ?b then _ else _] =>
             let E := fresh "E" in destruct b eqn:E; simpl
         end.

(** Unfolds an operation completely and splits on every answer of the
    binding and every test. *)
Ltac crunch :=
  unfold run_op;
  try rewrite gpio_toggle_cases;
  try match goal with
      | |- context [if ?b then gpio_clear _ _ else _] => destruct b
      end;
  try rewrite gpio_set_cases; try rewrite gpio_clear_cases;
  unfold outcome, close, unique_id_str, unique_id, enable_i2c, enable_spi,
    enable_i2c_setter, enable_spi_setter, i2c_slave_response,
    i2c_slave_response_setter, configured_gpio_outputs,
    configured_gpio_outputs_setter, enabled_gpio_pullups,
    enabled_gpio_pullups_setter, gpio_get, gpio_poll;
  cbv zeta; run; answers.

(** Closing a session hands the handle to [aa_close], ignores the status
    that comes back and forgets the handle. *)
Lemma close_returns s r w' :
  aa_close (handle (self s)) (world s) = (Ok r, w') ->
  close s = (Ok tt, {| world := w';
                       calls := calls s ++ [call_close (handle (self s))];
                       self := with_handle None (self s) |}).
Proof. intros H. unfold close. run. now rewrite H. Qed.

(** On a closed session every binding call is made with [None] as the
    handle, and nothing is raised unless a binding call was made. *)
Lemma closed_session_run op s res s' :
  handle (self s) = None ->
  run_op op s = (res, s') ->
  handle (self s') = None
  /\ exists l, calls s' = calls s ++ l
       /\ Forall (fun c => call_handle c = Some None) l
       /\ (forall e, res = Raise e -> l <> []).
Proof.
  intros Hh.
  assert (Hnil : forall st : State W, calls st = calls st ++ [])
    by (intros; now rewrite app_nil_r).
  destruct op; crunch;
    intros [= <- <-]; simpl; (split; [assumption || reflexivity|]);
    rewrite ?Hh, <- ?app_assoc; simpl;
    first [ exists []; split; [apply Hnil|];
            split; [constructor | discriminate]
          | eexists; split; [reflexivity|];
            split; [repeat constructor | discriminate] ].
Qed.

(** C6, as the code has it - The driver has no closed-session check.
    [close] hands the handle to the binding, ignores the status that comes
    back and sets the handle to [None].  On a session whose handle is [None],
    each of the operations [close], [unique_id], [unique_id_str], the getters
    and setters of [enable_i2c], [enable_spi], [i2c_slave_response],
    [configured_gpio_outputs] and [enabled_gpio_pullups], [gpio_set],
    [gpio_clear], [gpio_toggle], [gpio_get] and [gpio_poll] runs as on an
    open session with [None] as the handle: the handle stays [None], every
    binding call is made with [None], and nothing is raised unless a binding
    call was made.  Those among them that are answered from the shadow cache
    or take their fast path return normally without any binding call. *)
Theorem closed_session_is_not_checked (s : State W) :
  (forall r w',
     aa_close (handle (self s)) (world s) = (Ok r, w') ->
     close s = (Ok tt, {| world := w';
                          calls := calls s ++ [call_close (handle (self s))];
                          self := with_handle None (self s) |}))
  /\ (handle (self s) = None ->
      (forall op res s',
         run_op op s = (res, s') ->
         handle (self s') = None
         /\ exists l, calls s' = calls s ++ l
              /\ Forall (fun c => call_handle c = Some None) l
              /\ (forall e, res = Raise e -> l <> []))
      /\ (forall output,
            Py.contains output (_high_gpio_outputs (self s)) = false ->
            gpio_clear output s = (Ok tt, s))
      /\ (forall output,
            Py.contains output (_high_gpio_outputs (self s)) = true ->
            gpio_set output s = (Ok tt, s))
      /\ (forall output,
            Py.contains output (_configured_gpio_outputs (self s)) = true ->
            gpio_get output s
              = (Ok (Py.contains output (_high_gpio_outputs (self s))), s))
      /\ configured_gpio_outputs_setter (_configured_gpio_outputs (self s)) s
           = (Ok tt, s)
      /\ enabled_gpio_pullups_setter (_enabled_gpio_pullups (self s)) s
           = (Ok tt, s)).
Proof.
  split; [intros r w'; apply close_returns|].
  intros Hh. split; [|split; [|split; [|split; [|split]]]].
  - intros op res s'. now apply closed_session_run.
  - intros output H. unfold gpio_clear. run. now rewrite H.
  - intros output H. unfold gpio_set. run. now rewrite H.
  - intros output H. now apply gpio_get_output.
  - now apply outputs_setter_same_sum.
  - now apply pullups_setter_same_sum.
Qed.

(** The constructor leaves both GPIO shadow lists empty. *)
Lemma new_shadow_empty port s s' :
  new port s = (Ok tt, s') ->
  _configured_gpio_outputs (self s') = []
  /\ _high_gpio_outputs (self s') = []
  /\ _enabled_gpio_pullups (self s') = []
  /\ _i2c_slave_response (self s') = None.
Proof.
  unfold new, __init__. run.
  answer (aa_open_ext port (world s)); [|discriminate].
  destruct r as [r ver]. simpl.
  destruct (r <? 0); simpl; [discriminate|].
  destruct (_ <? 0); simpl; [discriminate|].
  answer (aa_configure (Some r) CONFIG_SPI_I2C w); [|discriminate].
  destruct (r0 <? 0); simpl; [discriminate|].
  intros [= <-]. simpl. auto.
Qed.

(** C5, as the code has it - Every driven-high pin is a configured output
    right after the session is opened (both lists are empty), and every
    operation keeps it so provided that [gpio_set] and [gpio_toggle] are only
    asked to raise a pin that is a configured output and that the setter of
    [configured_gpio_outputs] is only given a list that contains every pin
    driven high; the driver checks neither. *)
Theorem shadow_gpio_invariant (s : State W) :
  (forall port s',
     new port s = (Ok tt, s') ->
     _configured_gpio_outputs (self s') = []
     /\ _high_gpio_outputs (self s') = []
     /\ high_within_configured (self s'))
  /\ (forall op res s',
        high_within_configured (self s) ->
        keeps_outputs op (self s) ->
        run_op op s = (res, s') ->
        high_within_configured (self s')).
Proof.
  split.
  - intros port s' H.
    destruct (new_shadow_empty _ _ _ H) as [H1 [H2 _]].
    unfold high_within_configured. rewrite H1, H2.
    split; [reflexivity | split; [reflexivity | apply incl_refl]].
  - intros op res s' Hinv Hkeep.
    unfold high_within_configured, incl in *.
    destruct op; simpl in Hkeep; crunch; intros [= <- <-]; simpl;
      try assumption;
      intros x Hx;
      try (apply in_app_or in Hx; destruct Hx as [Hx|[<-|[]]]);
      eauto using remove_In;
      destruct Hkeep; auto.
Qed.

End Properties.

(* ===================================================================== *)
(** * Concrete runs on the simulated adapter *)
(* ===================================================================== *)

Section Runs.

Import Sim.

Lemma aardvark_constants_ok : ConstantsOk.
Proof.
  split; simpl; try lia.
  - repeat constructor; simpl; intuition discriminate.
  - repeat constructor; lia.
  - repeat constructor; simpl; intuition discriminate.
  - repeat constructor;
      [exists 2 | exists 4 | exists 3 | exists 0 | exists 1 | exists 5];
      (split; [lia | reflexivity]).
Qed.

(** The simulated adapter behaves as a configuration register. *)
Lemma sim_config_register : ConfigRegister config.
Proof.
  split.
  - intros [h|] w r w' H Hr; simpl in H; [|discriminate].
    destruct (Z.ltb_spec (status w) 0).
    + injection H as <- <-. lia.
    + injection H as <- <-. auto.
  - intros [h|] v w r w' Hv H Hr; simpl in H; [|discriminate].
    destruct (Z.ltb_spec (status w) 0).
    + injection H as <- <-. lia.
    + change CONFIG_QUERY with 128 in Hv.
      destruct (Z.eqb_spec v 128); [contradiction|].
      injection H as <- <-. reflexivity.
Qed.

Lemma opened_run : open None None (start bench) = (Ok tt, opened).
Proof. reflexivity. Qed.

Lemma closed_run : close opened = (Ok tt, closed).
Proof. reflexivity. Qed.

(** *** Configuration state machine *)

(** The simulated adapter answers on every integer handle as long as no
    fault is injected. *)
Lemma sim_config_answers h :
  ConfigAnswers config (fun w => status w = 0) (Some h).
Proof.
  split.
  - intros w Hok. exists w. simpl. rewrite Hok. simpl. auto.
  - intros v w Hok Hv. exists v, (with_config v w). simpl. rewrite Hok.
    simpl.
    assert (Hne : v <> 128).
    { unfold valid_config in Hv. simpl in Hv.
      destruct Hv as [<-|[<-|[<-|[<-|[]]]]]; discriminate. }
    apply Z.eqb_neq in Hne. rewrite Hne.
    split; [reflexivity|]. split; [|auto].
    unfold valid_config in Hv. simpl in Hv.
    destruct Hv as [<-|[<-|[<-|[<-|[]]]]]; lia.
Qed.

Lemma setters_keep_other_facet_witness :
  valid_config (config (world gpio_i2c))
  /\ ConfigAnswers config (fun w => status w = 0) (handle (self gpio_i2c))
  /\ status (world gpio_i2c) = 0
  /\ config (world gpio_i2c) = CONFIG_GPIO_I2C
  /\ exists s1 s2,
       enable_spi_setter true gpio_i2c = (Ok tt, s1)
       /\ config (world s1) = CONFIG_SPI_I2C
       /\ enable_spi_setter false s1 = (Ok tt, s2)
       /\ config (world s2) = CONFIG_GPIO_I2C.
Proof.
  assert (H1 : valid_config (config (world gpio_i2c)))
    by (simpl; unfold valid_config; simpl; tauto).
  assert (H2 : ConfigAnswers config (fun w => status w = 0)
                 (handle (self gpio_i2c)))
    by apply sim_config_answers.
  assert (H3 : status (world gpio_i2c) = 0) by reflexivity.
  assert (H4 : config (world gpio_i2c) = CONFIG_GPIO_I2C) by reflexivity.
  split; [exact H1|]. split; [exact H2|]. split; [exact H3|].
  split; [exact H4|].
  destruct (setters_keep_other_facet aardvark_constants_ok config
              sim_config_register gpio_i2c true H1) as [_ [_ [_ K]]].
  destruct (K (fun w => status w = 0) H2 H3) as [_ [_ K3]].
  exact (K3 H4).
Defined.



(** *** Shadow cache *)

Lemma gpio_get_cached_or_polled_witness :
  Py.contains GPIO_SCK (_configured_gpio_outputs (self driven)) = true
  /\ NoDup (_high_gpio_outputs (self two_outputs))
  /\ drives three_drives two_outputs = (Ok [true; true; true], driven)
  /\ gpio_get GPIO_SCK driven = (Ok false, driven)
  /\ Py.contains GPIO_SCL (_configured_gpio_outputs (self driven)) = true
  /\ gpio_get GPIO_SCL driven = (Ok true, driven)
  /\ Py.contains GPIO_SCK (_configured_gpio_outputs (self stale)) = false
  /\ Py.contains GPIO_SCK (_high_gpio_outputs (self stale)) = true
  /\ aa_gpio_change (handle (self stale)) 32 (world stale) = (Ok 34, bench)
  /\ 0 <= 34
  /\ gpio_get GPIO_SCK stale
     = (Ok false,
        {| world := bench; calls := [call_gpio_change (Some 1) 32];
           self := self stale |}).
Proof.
  assert (H1 : Py.contains GPIO_SCK
                 (_configured_gpio_outputs (self driven)) = true)
    by reflexivity.
  assert (H2 : NoDup (_high_gpio_outputs (self two_outputs)))
    by constructor.
  assert (H3 : drives three_drives two_outputs
               = (Ok [true; true; true], driven)) by reflexivity.
  assert (H4 : Py.contains GPIO_SCL
                 (_configured_gpio_outputs (self driven)) = true)
    by reflexivity.
  assert (H5 : Py.contains GPIO_SCK
                 (_configured_gpio_outputs (self stale)) = false)
    by reflexivity.
  assert (H6 : 0 <= 34) by lia.
  split; [exact H1|]. split; [exact H2|]. split; [exact H3|].
  split; [exact (proj2 (proj1 (gpio_get_cached_or_polled driven GPIO_SCK) H1)
                   two_outputs three_drives [true; true; true] H2 H3)|].
  split; [exact H4|].
  split; [exact (proj1 (proj1 (gpio_get_cached_or_polled driven GPIO_SCL) H4))|].
  split; [exact H5|]. split; [reflexivity|]. split; [reflexivity|].
  split; [exact H6|].
  destruct (proj2 (gpio_get_cached_or_polled stale GPIO_SCK) H5)
    as [_ [_ K]].
  exact (proj1 (K 34 bench eq_refl H6)).
Defined.

Lemma same_bitmask_no_transport_call_witness :
  pin_set [GPIO_SCL; GPIO_SCK]
  /\ pin_set (_configured_gpio_outputs (self two_outputs))
  /\ bitmask_union [GPIO_SCL; GPIO_SCK]
     = bitmask_union (_configured_gpio_outputs (self two_outputs))
  /\ configured_gpio_outputs_setter [GPIO_SCL; GPIO_SCK] two_outputs
     = (Ok tt, two_outputs).
Proof.
  assert (H1 : pin_set [GPIO_SCL; GPIO_SCK]).
  { split; repeat constructor; simpl; intuition discriminate. }
  assert (H2 : pin_set (_configured_gpio_outputs (self two_outputs))).
  { split; repeat constructor; simpl; intuition discriminate. }
  assert (H3 : bitmask_union [GPIO_SCL; GPIO_SCK]
               = bitmask_union (_configured_gpio_outputs (self two_outputs)))
    by reflexivity.
  split; [exact H1|]. split; [exact H2|]. split; [exact H3|].
  exact (proj1 (same_bitmask_no_transport_call aardvark_constants_ok
                  two_outputs [GPIO_SCL; GPIO_SCK] H1) H2 H3).
Defined.

Lemma failed_write_keeps_cache_witness :
  run_write (WriteHigh GPIO_SCK) two_outputs_faulty
  = (Raise (IOError (-6) "error"),
     {| world := faulty; calls := [call_gpio_set (Some 1) 8];
        self := self two_outputs_faulty |})
  /\ ((Raise (IOError (-6) "error") : Result unit) = Ok tt
      /\ {| world := faulty; calls := [call_gpio_set (Some 1) 8];
            self := self two_outputs_faulty |} = two_outputs_faulty
      \/ exists c ans,
           [call_gpio_set (Some 1) 8] = calls two_outputs_faulty ++ [c]
           /\ replay c (world two_outputs_faulty) = Some (ans, faulty)
           /\ match ans with
              | Ok r =>
                  if r <? 0
                  then (Raise (IOError (-6) "error") : Result unit)
                       = Raise (IOError r (aa_status_string r))
                       /\ self two_outputs_faulty = self two_outputs_faulty
                  else (Raise (IOError (-6) "error") : Result unit) = Ok tt
              | Raise e =>
                  (Raise (IOError (-6) "error") : Result unit) = Raise e
                  /\ self two_outputs_faulty = self two_outputs_faulty
              end).
Proof.
  split; [reflexivity|].
  apply (failed_write_keeps_cache (WriteHigh GPIO_SCK) two_outputs_faulty
           {| world := faulty; calls := [call_gpio_set (Some 1) 8];
              self := self two_outputs_faulty |}
           (Raise (IOError (-6) "error"))).
  reflexivity.
Defined.

Lemma shadow_gpio_invariant_witness :
  high_within_configured (self two_outputs)
  /\ keeps_outputs (OpGpioSet GPIO_SCK) (self two_outputs)
  /\ run_op (OpGpioSet GPIO_SCK) two_outputs
     = (Ok tt,
        {| world := bench; calls := [call_gpio_set (Some 1) 8];
           self := with_high_gpio_outputs [GPIO_SCK] (self two_outputs) |})
  /\ high_within_configured
       (with_high_gpio_outputs [GPIO_SCK] (self two_outputs)).
Proof.
  assert (H1 : high_within_configured (self two_outputs))
    by (intros x []).
  assert (H2 : keeps_outputs (OpGpioSet GPIO_SCK) (self two_outputs))
    by (simpl; tauto).
  split; [exact H1|]. split; [exact H2|]. split; [reflexivity|].
  apply (proj2 (shadow_gpio_invariant two_outputs) (OpGpioSet GPIO_SCK)
           (Ok tt)
           {| world := bench; calls := [call_gpio_set (Some 1) 8];
              self := with_high_gpio_outputs [GPIO_SCK] (self two_outputs) |}
           H1 H2).
  reflexivity.
Defined.

(** Right after [open()] no pin is a configured output, yet [gpio_set] of SS
    succeeds and records SS as driven high. *)
Lemma shadow_gpio_invariant_counterexample :
  high_within_configured (self opened)
  /\ exists s',
       gpio_set GPIO_SS opened = (Ok tt, s')
       /\ _high_gpio_outputs (self s') = [GPIO_SS]
       /\ _configured_gpio_outputs (self s') = []
       /\ ~ high_within_configured (self s').
Proof.
  split; [intros x []|].
  exists (snd (gpio_set GPIO_SS opened)).
  split; [reflexivity|]. split; [reflexivity|].
  split; [reflexivity|].
  intros H. apply (H GPIO_SS). now left.
Qed.

(** *** Sessions *)

Lemma closed_session_is_not_checked_witness :
  aa_close (handle (self opened)) (world opened) = (Ok 1, world opened)
  /\ close opened = (Ok tt, closed)
  /\ handle (self closed) = None
  /\ gpio_clear GPIO_SS closed = (Ok tt, closed).
Proof.
  split; [reflexivity|].
  split; [apply (proj1 (closed_session_is_not_checked opened) 1 (world opened));
          reflexivity|].
  split; [reflexivity|].
  assert (Hh : handle (self closed) = None) by reflexivity.
  assert (Hlow : Py.contains GPIO_SS (_high_gpio_outputs (self closed)) = false)
    by reflexivity.
  destruct (proj2 (closed_session_is_not_checked closed) Hh) as [_ [K _]].
  exact (K GPIO_SS Hlow).
Defined.

(** On the session that [open()] then [close()] leave, with a binding that
    refuses a [None] handle: [gpio_clear], the setter of
    [configured_gpio_outputs] given the cached list and the getter of
    [i2c_slave_response] all return normally, with no error and no binding
    call. *)
Lemma closed_session_counterexample :
  (open None None ;; close) (start bench) = (Ok tt, closed)
  /\ handle (self closed) = None
  /\ gpio_clear GPIO_SS closed = (Ok tt, closed)
  /\ configured_gpio_outputs_setter [] closed = (Ok tt, closed)
  /\ i2c_slave_response closed = (Ok None, closed).
Proof. repeat split. Qed.

(** *** Opening a device *)

Lemma version_gate_leaves_handle_open_witness :
  aa_open_ext 0 (world (start old_firmware))
  = (Ok (1, {| version := versions old_firmware |}), old_firmware)
  /\ 0 <= 1
  /\ (firmware (versions old_firmware) < fw_req_by_sw (versions old_firmware)
      \/ software (versions old_firmware)
         < sw_req_by_fw (versions old_firmware))
  /\ exists s',
       open None None (start old_firmware)
       = (Raise (IOError ERR_INCOMPATIBLE_DEVICE "error"), s')
       /\ calls s' = [call_open_ext 0]
       /\ handle (self s') = Some 1.
Proof.
  assert (H : firmware (versions old_firmware)
              < fw_req_by_sw (versions old_firmware)
              \/ software (versions old_firmware)
                 < sw_req_by_fw (versions old_firmware))
    by (left; simpl; lia).
  assert (Ho : aa_open_ext 0 (world (start old_firmware))
               = (Ok (1, {| version := versions old_firmware |}), old_firmware))
    by reflexivity.
  assert (Hr : 0 <= 1) by lia.
  split; [exact Ho|]. split; [exact Hr|]. split; [exact H|].
  destruct (version_gate_leaves_handle_open aardvark_constants_ok
              (start old_firmware) 0 1 {| version := versions old_firmware |}
              old_firmware Ho Hr H)
    as [s' [H1 [H2 [_ [_ [H5 [_ H7]]]]]]].
  exists s'. split; [|split; [exact H2 | exact H5]].
  rewrite (H7 eq_refl). exact H1.
Defined.

Lemma open_by_serial_number_witness :
  find_devices (start swapped) = (Ok [swapped_device], swapped_enumerated)
  /\ (forall d, In d [swapped_device] ->
                dev_serial_number d <> "7777-888888")
  /\ open None (Some "7777-888888") (start swapped)
     = (Raise (IOError ERR_UNABLE_TO_OPEN "error"), swapped_enumerated)
  /\ [swapped_device] = [] ++ swapped_device :: []
  /\ (forall x, In x [] -> dev_serial_number x <> "1234-567890")
  /\ dev_serial_number swapped_device = "1234-567890"
  /\ new (dev_port swapped_device) swapped_enumerated = (Ok tt, swapped_opened)
  /\ aa_unique_id (handle (self swapped_opened)) (world swapped_opened)
     = (Ok 1111222222, world swapped_opened)
  /\ _unique_id_str 1111222222 <> "1234-567890"
  /\ aa_close (handle (self swapped_opened)) (world swapped_opened)
     = (Ok 1, world swapped_opened)
  /\ exists l,
       open None (Some "1234-567890") (start swapped)
       = (Raise (IOError ERR_UNABLE_TO_OPEN "error"),
          {| world := world swapped_opened; calls := l;
             self := with_handle None (self swapped_opened) |})
       /\ filter is_open l = [call_open_ext 0]
       /\ filter is_close l = [call_close (Some 1)].
Proof.
  assert (Hf : find_devices (start swapped)
               = (Ok [swapped_device], swapped_enumerated)) by reflexivity.
  assert (Hnone : forall d, In d [swapped_device] ->
                            dev_serial_number d <> "7777-888888")
    by (intros d [<-|[]]; discriminate).
  assert (Hpre : forall x : Device,
            In x [] -> dev_serial_number x <> "1234-567890")
    by (intros x []).
  assert (Hd : dev_serial_number swapped_device = "1234-567890")
    by reflexivity.
  assert (Hnew : new (dev_port swapped_device) swapped_enumerated
                 = (Ok tt, swapped_opened)) by reflexivity.
  assert (Hid : aa_unique_id (handle (self swapped_opened))
                  (world swapped_opened)
                = (Ok 1111222222, world swapped_opened)) by reflexivity.
  assert (Hstr : _unique_id_str 1111222222 <> "1234-567890") by discriminate.
  assert (Hcl : aa_close (handle (self swapped_opened)) (world swapped_opened)
                = (Ok 1, world swapped_opened)) by reflexivity.
  pose proof (open_by_serial_number aardvark_constants_ok (start swapped)
                swapped_enumerated None "7777-888888" [swapped_device] Hf)
    as [Ha _].
  pose proof (open_by_serial_number aardvark_constants_ok (start swapped)
                swapped_enumerated None "1234-567890" [swapped_device] Hf)
    as [_ Hb].
  destruct (Hb [] swapped_device [] swapped_opened 1111222222
              (world swapped_opened) 1 (world swapped_opened)
              eq_refl Hpre Hd Hnew Hid Hstr Hcl) as [l [H1 [H2 [H3 _]]]].
  repeat (split; [assumption || reflexivity || exact (proj1 (Ha Hnone))|]).
  exists l. split; [exact H1 | split; [exact H2 | exact H3]].
Defined.

End Runs.

(* ===================================================================== *)
(** * Further properties of the driver *)
(* ===================================================================== *)

Section Bits.

(** A mask meets a single bit exactly when it has that bit. *)
Lemma land_single_bit u k :
  0 <= k -> (Z.land u (2 ^ k) =? 0) = negb (Z.testbit u k).
Proof.
  intros Hk. destruct (Z.testbit u k) eqn:Hu; simpl.
  - apply Z.eqb_neq. intros E.
    apply (f_equal (fun z => Z.testbit z k)) in E.
    rewrite Z.land_spec, Hu, Z.pow2_bits_true, Z.testbit_0_l in E by exact Hk.
    discriminate.
  - apply Z.eqb_eq. apply Z.bits_inj'. intros m Hm.
    rewrite Z.land_spec, Z.testbit_0_l, Z.pow2_bits_eqb by exact Hk.
    destruct (Z.eqb_spec k m) as [<-|_];
      [now rewrite Hu | apply andb_false_r].
Qed.

Lemma pow2_inj j k : 0 <= j -> 0 <= k -> 2 ^ j = 2 ^ k -> j = k.
Proof. intros Hj Hk E. apply (Z.pow_inj_r 2); lia. Qed.

(** In a union of single bits, a bit is set exactly when its mask is a
    member. *)
Lemma union_has_bit l k :
  0 <= k -> Forall single_bit l ->
  Z.testbit (bitmask_union l) k = Py.contains (2 ^ k) l.
Proof.
  intros Hk Hl. rewrite union_testbit. unfold Py.contains.
  induction Hl as [|q l [j [Hj ->]] _ IH]; simpl; [reflexivity|].
  rewrite IH, Z.pow2_bits_eqb by exact Hj. f_equal.
  destruct (Z.eqb_spec j k) as [->|Hne].
  - symmetry. apply Z.eqb_refl.
  - symmetry. apply Z.eqb_neq. intros E. apply Hne.
    symmetry. now apply pow2_inj.
Qed.

Lemma union_nonneg l : Forall single_bit l -> 0 <= bitmask_union l.
Proof.
  induction 1 as [|q l [j [Hj ->]] _ IH]; simpl; [lia|].
  apply Z.lor_nonneg. split; [apply Z.pow_nonneg; lia | exact IH].
Qed.

(** Reading the members of a set of single bits back out of its union. *)
Lemma filter_union cands l :
  Forall single_bit cands -> Forall single_bit l ->
  filter (fun p => negb (Z.land (bitmask_union l) p =? 0)) cands
  = filter (fun p => Py.contains p l) cands.
Proof.
  intros Hc Hl. apply filter_ext_in. intros p Hp.
  rewrite Forall_forall in Hc. destruct (Hc p Hp) as [k [Hk ->]].
  rewrite land_single_bit, negb_involutive by exact Hk.
  now apply union_has_bit.
Qed.

(** Two sets of single bits with the same union have the same members. *)
Lemma same_union_same_members l1 l2 p :
  Forall single_bit l1 -> Forall single_bit l2 ->
  bitmask_union l1 = bitmask_union l2 -> In p l1 -> In p l2.
Proof.
  intros H1 H2 E Hp.
  pose proof H1 as H1'. rewrite Forall_forall in H1'.
  destruct (H1' p Hp) as [k [Hk ->]].
  apply contains_In. rewrite <- union_has_bit, <- E, union_has_bit
    by assumption.
  now apply contains_In.
Qed.

End Bits.

Section Strings.

Lemma free_of_app c s t :
  free_of c s = true -> free_of c t = true -> free_of c (s ++ t)%string = true.
Proof.
  induction s as [|x s IH]; simpl; intros Hs Ht; [exact Ht|].
  apply andb_true_iff in Hs as [Hx Hs]. rewrite Hx. simpl. now apply IH.
Qed.

Lemma free_of_zeros c k : c <> "0"%char -> free_of c (Py.zeros k) = true.
Proof.
  intros Hc. induction k as [|k IH]; [reflexivity|].
  cbn [Py.zeros free_of]. rewrite IH, andb_true_r.
  apply negb_true_iff. apply Ascii.eqb_neq. congruence.
Qed.

Lemma dot_free_digits d : free_of "." (NilEmpty.string_of_uint d) = true.
Proof. induction d; simpl; auto. Qed.

Lemma dot_free_zfill w n : free_of "." (Py.zfill w (Py.decimal n)) = true.
Proof.
  unfold Py.zfill, Py.decimal. apply free_of_app.
  - apply free_of_zeros. discriminate.
  - apply dot_free_digits.
Qed.

Lemma split_at_app c s t :
  free_of c s = true -> split_at c (s ++ String c t)%string = Some (s, t).
Proof.
  induction s as [|x s IH]; simpl; intros Hs.
  - now rewrite Ascii.eqb_refl.
  - apply andb_true_iff in Hs as [Hx Hs].
    apply negb_true_iff in Hx. rewrite Hx, (IH Hs). reflexivity.
Qed.

Lemma zfill_inj w1 w2 n m :
  Py.zfill w1 (Py.decimal n) = Py.zfill w2 (Py.decimal m) -> n = m.
Proof.
  intros E. apply (f_equal Serial.parse_decimal) in E.
  rewrite !parse_zfill in E. injection E as E. lia.
Qed.

Lemma version_str_halves v :
  0 <= v ->
  _to_version_str v =
    (Py.zfill 0 (Py.decimal (Z.to_N (v / 256))) ++ "."
       ++ Py.zfill 2 (Py.decimal (Z.to_N (v mod 256))))%string.
Proof.
  intros Hv. unfold _to_version_str.
  rewrite Z.shiftr_div_pow2 by lia.
  change 255 with (Z.ones 8). rewrite Z.land_ones by lia.
  change (2 ^ 8) with 256.
  assert (0 <= v / 256) by (apply Z.div_pos; lia).
  assert (0 <= v mod 256 < 256) by (apply Z.mod_pos_bound; lia).
  rewrite !fmt_0d_nonneg by lia. reflexivity.
Qed.

(** X1 - [_to_version_str]: a non-negative version is written as its major
    number [v // 256] in decimal, a dot, and its minor number [v % 256] in
    decimal padded with zeros to at least two digits; two non-negative
    versions that are written the same are equal. *)
Theorem version_str_injective (a b : Z) :
  0 <= a -> 0 <= b ->
  _to_version_str a =
    (Py.fmt_0d 0 (a / 256) ++ "." ++ Py.fmt_0d 2 (a mod 256))%string
  /\ (_to_version_str a = _to_version_str b -> a = b).
Proof.
  intros Ha Hb.
  assert (Hqa : 0 <= a / 256) by (apply Z.div_pos; lia).
  assert (Hra : 0 <= a mod 256 < 256) by (apply Z.mod_pos_bound; lia).
  assert (Hqb : 0 <= b / 256) by (apply Z.div_pos; lia).
  assert (Hrb : 0 <= b mod 256 < 256) by (apply Z.mod_pos_bound; lia).
  split.
  - rewrite version_str_halves, !fmt_0d_nonneg by lia. reflexivity.
  - rewrite !version_str_halves by assumption. intros E.
    apply (f_equal (split_at ".")) in E.
    change ("." ++ ?t)%string with (String "." t) in E.
    rewrite !split_at_app in E by apply dot_free_zfill.
    injection E as E1 E2.
    apply zfill_inj in E1. apply zfill_inj in E2.
    rewrite (Z.div_mod a 256), (Z.div_mod b 256) by lia. lia.
Qed.

End Strings.

Section Acquisition.

Context {C : Constants} {W : Type} {A : Api W}.

(** Unfolds driver code down to the binding calls. *)
Ltac unfold_driver :=
  unfold _interface_configuration, _raise_error_if_negative, void, attempt,
    bind, ret, raise, attr, assign, api in *; simpl in *.

(** X2 - [find_devices], on the count the first query answers: a negative
    count raises the [IOError] of that count and a zero count gives the empty
    list, both after that single call; only a positive count leads to the
    sized query, whose own count is treated the same way. *)
Theorem find_devices_counts (s : State W) (n : Z) (w1 : W) :
  aa_find_devices (world s) = (Ok n, w1) ->
  let after w l := {| world := w; calls := calls s ++ l; self := self s |} in
  (n < 0 ->
     find_devices s
     = (Raise (IOError n (aa_status_string n)), after w1 [call_find_devices]))
  /\ (n = 0 -> find_devices s = (Ok [], after w1 [call_find_devices]))
  /\ (0 < n ->
      forall n2 ports ids w2,
        aa_find_devices_ext n w1 = (Ok (n2, ports, ids), w2) ->
        let l := [call_find_devices; call_find_devices_ext n] in
        (n2 < 0 ->
           find_devices s
           = (Raise (IOError n2 (aa_status_string n2)), after w2 l))
        /\ (n2 = 0 -> find_devices s = (Ok [], after w2 l))).
Proof.
  intros H after. split; [|split].
  - intros Hn. unfold find_devices. unfold_driver. rewrite H. simpl.
    destruct (Z.ltb_spec n 0); [reflexivity | lia].
  - intros ->. unfold find_devices. unfold_driver. rewrite H. reflexivity.
  - intros Hn n2 ports ids w2 H2 l.
    assert (Hl : forall (r : Result (list Device)),
              (r, {| world := w2;
                     calls := (calls s ++ [call_find_devices])
                                ++ [call_find_devices_ext n];
                     self := self s |}) = (r, after w2 l)).
    { intros r. unfold after, l. now rewrite <- app_assoc. }
    split.
    + intros Hn2. rewrite <- Hl.
      unfold find_devices. unfold_driver. rewrite H. simpl.
      destruct (Z.ltb_spec n 0); [lia|]. simpl.
      destruct (Z.eqb_spec n 0); [lia|]. simpl.
      rewrite H2. simpl.
      destruct (Z.ltb_spec n2 0); [reflexivity | lia].
    + intros ->. rewrite <- Hl.
      unfold find_devices. unfold_driver. rewrite H. simpl.
      destruct (Z.ltb_spec n 0); [lia|]. simpl.
      destruct (Z.eqb_spec n 0); [lia|]. simpl.
      rewrite H2. reflexivity.
Qed.

Lemma nth_error_firstn {T} (k i : nat) (l : list T) x :
  nth_error (firstn k l) i = Some x -> nth_error l i = Some x.
Proof.
  revert i l. induction k as [|k IH]; intros i l; simpl.
  - destruct i; discriminate.
  - destruct l as [|y l]; [destruct i; discriminate|].
    destruct i; simpl; [auto | apply IH].
Qed.

Lemma nth_error_combine {T U} (l1 : list T) (l2 : list U) i a b :
  nth_error (combine l1 l2) i = Some (a, b) ->
  nth_error l1 i = Some a /\ nth_error l2 i = Some b.
Proof.
  revert l2 i. induction l1 as [|x l1 IH]; intros l2 i; simpl.
  - destruct i; discriminate.
  - destruct l2 as [|y l2]; [destruct i; discriminate|].
    destruct i; simpl; [intros [= -> ->]; auto | apply IH].
Qed.

(** Splitting a raw port into the port and the in-use flag loses nothing. *)
Lemma device_of_port port uid :
  single_bit PORT_NOT_FREE ->
  raw_port (device_of port uid) = port
  /\ Z.land (dev_port (device_of port uid)) PORT_NOT_FREE = 0.
Proof.
  intros [k [Hk E]]. unfold raw_port, device_of. simpl. split.
  - assert (Hflag : (if negb (Z.land port PORT_NOT_FREE =? 0)
                     then PORT_NOT_FREE else 0)
                    = Z.land port PORT_NOT_FREE).
    { rewrite E, land_single_bit by exact Hk. rewrite negb_involutive.
      destruct (Z.testbit port k) eqn:Hb.
      - apply Z.bits_inj'. intros m Hm.
        rewrite Z.land_spec, Z.pow2_bits_eqb by exact Hk.
        destruct (Z.eqb_spec k m) as [<-|_];
          [now rewrite Hb | now rewrite andb_false_r].
      - symmetry. apply Z.eqb_eq. rewrite land_single_bit by exact Hk.
        now rewrite Hb. }
    rewrite Hflag, <- Z.ldiff_land. apply Z.lor_ldiff_and.
  - rewrite <- Z.land_assoc, (Z.land_comm (Z.lnot _)), Z.land_lnot_diag.
    apply Z.land_0_r.
Qed.

(** X3 - [find_devices], when both queries answer a positive count: the
    list has as many devices as the shorter of the two arrays cut at the
    count; the device at index [i] comes from the raw port and the unique id
    at index [i]: its serial number is the formatted id, its port has the
    in-use flag cleared, and port and flag together give the raw port
    back. *)
Theorem find_devices_decodes (s : State W) (n n2 : Z) (ports ids : list Z)
    (w1 w2 : W) :
  single_bit PORT_NOT_FREE ->
  aa_find_devices (world s) = (Ok n, w1) ->
  0 < n ->
  aa_find_devices_ext n w1 = (Ok (n2, ports, ids), w2) ->
  0 < n2 ->
  exists devices,
    find_devices s
    = (Ok devices,
       {| world := w2;
          calls := calls s ++ [call_find_devices; call_find_devices_ext n];
          self := self s |})
    /\ List.length devices
       = Nat.min (Z.to_nat n2)
           (Nat.min (List.length ports) (List.length ids))
    /\ forall i d,
         nth_error devices i = Some d ->
         exists port uid,
           nth_error ports i = Some port
           /\ nth_error ids i = Some uid
           /\ dev_serial_number d = _unique_id_str uid
           /\ Z.land (dev_port d) PORT_NOT_FREE = 0
           /\ raw_port d = port.
Proof.
  intros Hbit H1 Hn H2 Hn2. eexists. split; [|split].
  - unfold find_devices. unfold_driver. rewrite H1. simpl.
    destruct (Z.ltb_spec n 0); [lia|]. simpl.
    destruct (Z.eqb_spec n 0); [lia|]. simpl.
    rewrite H2. simpl.
    destruct (Z.ltb_spec n2 0); [lia|]. simpl.
    destruct (Z.eqb_spec n2 0); [lia|]. simpl.
    rewrite <- app_assoc. reflexivity.
  - rewrite length_map, length_combine, !length_firstn. lia.
  - intros i d Hd. rewrite nth_error_map in Hd.
    destruct (nth_error (combine _ _) i) as [[port uid]|] eqn:E;
      [|discriminate].
    injection Hd as <-.
    apply nth_error_combine in E as [Ep Eu].
    apply nth_error_firstn in Ep. apply nth_error_firstn in Eu.
    exists port, uid. simpl fst. simpl snd.
    destruct (device_of_port port uid Hbit) as [Hraw Hclear].
    repeat split; assumption || reflexivity.
Qed.

(** X4 - [open] without a serial number never enumerates: it is the
    constructor on the port given, on port 0 when none is given, so the first
    binding call is the open call of that port and the only other one is
    the forced configuration.  A port given next to a serial number is
    ignored. *)
Theorem open_without_serial_number (s : State W) (port : option Z) :
  let p := match port with
           | Some p => p
           | None => 0
           end in
  open port None s = new p s
  /\ (exists l,
        calls (snd (open port None s)) = calls s ++ call_open_ext p :: l
        /\ (l = [] \/ exists h, l = [call_configure h CONFIG_SPI_I2C]))
  /\ forall sn, open port (Some sn) s = open None (Some sn) s.
Proof.
  intros p.
  assert (E : open port None s = new p s) by (destruct port; reflexivity).
  split; [exact E|]. split; [|destruct port; reflexivity].
  rewrite E. unfold new, __init__. unfold_driver.
  destruct (aa_open_ext p (world s)) as [[[r ver]|e] w1]; simpl;
    [|exists []; auto].
  destruct (r <? 0); simpl; [exists []; auto|].
  destruct (_ <? 0); simpl; [exists []; auto|].
  destruct (aa_configure (Some r) CONFIG_SPI_I2C w1) as [[c|e] w2]; simpl;
    [destruct (c <? 0); simpl|];
    exists [call_configure (Some r) CONFIG_SPI_I2C];
    rewrite <- app_assoc; simpl; eauto.
Qed.

(** X5 - Opening by serial number, when the first enumerated device with
    that serial number opens and the adapter then reports an id that is
    written as that serial number: [open] returns with the session the
    constructor made; the binding saw the enumeration, one open call, the
    forced configuration and the id query, and no close call. *)
Theorem open_by_serial_number_succeeds (s s1 s2 : State W)
    (port : option Z) (sn : string) (pre post : list Device) (d : Device)
    (u : Z) (w3 : W) :
  find_devices s = (Ok (pre ++ d :: post), s1) ->
  (forall x, In x pre -> dev_serial_number x <> sn) ->
  dev_serial_number d = sn ->
  new (dev_port d) s1 = (Ok tt, s2) ->
  aa_unique_id (handle (self s2)) (world s2) = (Ok u, w3) ->
  _unique_id_str u = sn ->
  let h := handle (self s2) in
  exists l,
    open port (Some sn) s
    = (Ok tt, {| world := w3; calls := calls s ++ l; self := self s2 |})
    /\ filter is_open l = [call_open_ext (dev_port d)]
    /\ filter is_close l = []
    /\ exists enumeration,
         l = enumeration ++ [call_open_ext (dev_port d);
                             call_configure h CONFIG_SPI_I2C;
                             call_unique_id h]
         /\ (enumeration = [call_find_devices]
             \/ exists n, enumeration
                  = [call_find_devices; call_find_devices_ext n]).
Proof.
  intros Hfind Hpre Hd Hnew Hid Hstr h.
  destruct (find_devices_frame _ _ _ Hfind) as [_ [lf [Hcalls Hlf]]].
  destruct (new_returns _ _ _ Hnew) as [Hcalls2 _].
  apply String.eqb_eq in Hstr.
  exists (lf ++ [call_open_ext (dev_port d); call_configure h CONFIG_SPI_I2C;
                 call_unique_id h]).
  split; [|split; [|split]].
  - destruct port; unfold open, bind; rewrite Hfind,
      (scan_first_match pre d post sn None Hpre Hd); unfold ret at 1;
      unfold ret at 1; rewrite Hnew;
      unfold unique_id_str, unique_id, bind, attr, api, ret;
      simpl; rewrite Hid; simpl; rewrite Hstr; simpl;
      rewrite Hcalls2, Hcalls; fold h; rewrite <- !app_assoc; reflexivity.
  - rewrite filter_app. destruct Hlf as [->|[n ->]]; reflexivity.
  - rewrite filter_app. destruct Hlf as [->|[n ->]]; reflexivity.
  - exists lf. split; [reflexivity | exact Hlf].
Qed.

(** X6 - The scan of [open] compares serial-number strings, and on
    32-bit unsigned unique ids that is comparing the ids: among the devices
    made from raw ports and 32-bit ids, the serial number of a 32-bit id [u]
    selects the first device whose id is [u], and none when no device has
    that id. *)
Theorem serial_scan_selects_by_id (raw : list (Z * Z)) (u : Z) :
  0 <= u < 2 ^ 32 ->
  Forall (fun pu => 0 <= snd pu < 2 ^ 32) raw ->
  let devices := map (fun pu => device_of (fst pu) (snd pu)) raw in
  (forall pre p post,
     raw = pre ++ (p, u) :: post ->
     Forall (fun pu => snd pu <> u) pre ->
     scan devices (_unique_id_str u) None = (true, Some (device_of p u)))
  /\ (Forall (fun pu => snd pu <> u) raw ->
      fst (scan devices (_unique_id_str u) None) = false).
Proof.
  intros Hu Hraw devices.
  assert (Hne : forall l,
            Forall (fun pu : Z * Z => 0 <= snd pu < 2 ^ 32) l ->
            Forall (fun pu => snd pu <> u) l ->
            forall x, In x (map (fun pu => device_of (fst pu) (snd pu)) l) ->
                      dev_serial_number x <> _unique_id_str u).
  { intros l Hl Hd x Hx. apply in_map_iff in Hx as [[p v] [<- Hin]].
    rewrite Forall_forall in Hl, Hd. simpl.
    intros E. apply (Hd _ Hin). simpl.
    apply unique_id_str_inj;
      [apply (Hl _ Hin) | apply Hu | exact E]. }
  split.
  - intros pre p post -> Hpre. unfold devices.
    rewrite map_app. simpl.
    apply scan_first_match; [|reflexivity].
    apply Hne; [|exact Hpre].
    apply Forall_app in Hraw. tauto.
  - intros Hnone. apply scan_no_match. now apply Hne.
Qed.

(** X7 - The constructor, once [aa_open_ext] has answered: a negative
    answer raises its [IOError] and no handle is stored; when the port opened
    and the versions are compatible, a negative answer of the forced
    configuration raises its [IOError] with the handle stored and no close
    call made, and otherwise the constructor returns an object with the
    handle, the three version strings, no slave response and empty GPIO
    lists, after exactly the open call and the configuration call. *)
Theorem constructor_outcome (s : State W) (port r : Z) (ver : AardvarkExt)
    (w1 : W) :
  aa_open_ext port (world s) = (Ok (r, ver), w1) ->
  let v := version ver in
  let named :=
    with_versions (_to_version_str (hardware v)) (_to_version_str (firmware v))
      (_to_version_str (software v)) (with_handle (Some r) blank) in
  (r < 0 ->
     new port s
     = (Raise (IOError r (aa_status_string r)),
        {| world := w1; calls := calls s ++ [call_open_ext port];
           self := blank |}))
  /\ (0 <= r -> fw_req_by_sw v <= firmware v -> sw_req_by_fw v <= software v ->
      forall c w2,
        aa_configure (Some r) CONFIG_SPI_I2C w1 = (Ok c, w2) ->
        let l := [call_open_ext port; call_configure (Some r) CONFIG_SPI_I2C] in
        (c < 0 ->
           new port s
           = (Raise (IOError c (aa_status_string c)),
              {| world := w2; calls := calls s ++ l; self := named |}))
        /\ (0 <= c ->
            new port s
            = (Ok tt, {| world := w2; calls := calls s ++ l; self := named |})
            /\ handle named = Some r
            /\ _i2c_slave_response named = None
            /\ _configured_gpio_outputs named = []
            /\ _high_gpio_outputs named = []
            /\ _enabled_gpio_pullups named = [])).
Proof.
  intros H v named. split.
  - intros Hr. unfold new, __init__. unfold_driver. rewrite H. simpl.
    destruct (Z.ltb_spec r 0); [reflexivity | lia].
  - intros Hr Hfw Hsw c w2 Hc l.
    assert (Hrun : new port s
              = if c <? 0
                then (Raise (IOError c (aa_status_string c)),
                      {| world := w2; calls := calls s ++ l; self := named |})
                else (Ok tt, {| world := w2; calls := calls s ++ l;
                                self := named |})).
    { unfold new, __init__, l, named, v in *. unfold_driver.
      rewrite H. simpl.
      destruct (Z.ltb_spec r 0); [lia|]. simpl.
      destruct (Z.ltb_spec (firmware (version ver))
                  (fw_req_by_sw (version ver))); [lia|].
      destruct (Z.ltb_spec (software (version ver))
                  (sw_req_by_fw (version ver))); [lia|].
      destruct (Z.ltb_spec r 0); [lia|]. simpl.
      rewrite Hc. simpl. rewrite <- app_assoc. simpl.
      destruct (c <? 0); reflexivity. }
    split.
    + intros Hneg. rewrite Hrun.
      destruct (Z.ltb_spec c 0); [reflexivity | lia].
    + intros Hpos. rewrite Hrun.
      destruct (Z.ltb_spec c 0); [lia|]. repeat split.
Qed.

End Acquisition.

Section Configuration.

Context {C : Constants} {W : Type} {A : Api W}.

(** What the getters read from a binding that behaves as a configuration
    register. *)
Lemma getters_read_register reg (HR : ConfigRegister reg) s :
  (forall v s', enable_i2c s = (Ok v, s') ->
                v = i2c_facet (reg (world s)) /\ reg (world s') = reg (world s))
  /\ (forall v s', enable_spi s = (Ok v, s') ->
                   v = spi_facet (reg (world s))
                   /\ reg (world s') = reg (world s)).
Proof.
  split; intros v s'; unfold enable_i2c, enable_spi; unfold bind at 1;
    rewrite interface_configuration_cases; cbv zeta;
    destruct (aa_configure (handle (self s)) CONFIG_QUERY (world s))
      as [[r|e] w] eqn:E; try discriminate;
    destruct (Z.ltb_spec r 0); try discriminate;
    unfold ret; intros [= <- <-]; simpl;
    destruct (query_reads reg HR _ _ _ _ E) as [-> Hw]; auto.
Qed.

(** The constructor that returns has written [CONFIG_SPI_I2C]. *)
Lemma new_forces_configuration (HC : ConstantsOk) reg
    (HR : ConfigRegister reg) port s s' :
  new port s = (Ok tt, s') -> reg (world s') = CONFIG_SPI_I2C.
Proof.
  unfold new, __init__.
  unfold _interface_configuration, _raise_error_if_negative, bind, ret,
    raise, attr, assign, api. simpl.
  destruct (aa_open_ext port (world s)) as [[[r ver]|e] w1]; simpl;
    [|discriminate].
  destruct (r <? 0); simpl; [discriminate|].
  destruct (_ <? 0); simpl; [discriminate|].
  destruct (aa_configure (Some r) CONFIG_SPI_I2C w1) as [[c|e] w2] eqn:E;
    simpl; [|discriminate].
  destruct (Z.ltb_spec c 0); simpl; [discriminate|].
  intros [= <-]. simpl.
  apply (change_writes reg HR (Some r) CONFIG_SPI_I2C w1 c w2); auto.
  pose proof (config_neq HC). tauto.
Qed.

(** X8 - Right after a constructor that returned, against a binding that
    behaves as a configuration register, the configuration is
    [CONFIG_SPI_I2C]: the getters [enable_i2c] and [enable_spi] that return
    both return [True]. *)
Theorem open_enables_both_interfaces (HC : ConstantsOk) reg
    (HR : ConfigRegister reg) (port : Z) (s s' : State W) :
  new port s = (Ok tt, s') ->
  reg (world s') = CONFIG_SPI_I2C
  /\ (forall v s2, enable_i2c s' = (Ok v, s2) -> v = true)
  /\ (forall v s2, enable_spi s' = (Ok v, s2) -> v = true).
Proof.
  intros H. pose proof (new_forces_configuration HC reg HR _ _ _ H) as E.
  destruct (getters_read_register reg HR s') as [Hi Hs].
  split; [exact E|]. split; intros v s2 Hv.
  - destruct (Hi _ _ Hv) as [-> _]. rewrite E. unfold i2c_facet.
    rewrite Z.eqb_refl. apply orb_true_r.
  - destruct (Hs _ _ Hv) as [-> _]. rewrite E. unfold spi_facet.
    rewrite Z.eqb_refl. apply orb_true_r.
Qed.


End Configuration.

Section Lifecycle.

Context {C : Constants} {W : Type} {A : Api W}.

(** X10 - A [with] block on a session runs [close] exactly once when the
    body is over, whether the body returned or raised: when [aa_close]
    answers, the outcome of the block is the outcome of the body (its
    exception is not swallowed), the handle is [None] and the close call is
    the only call added after the body; when [aa_close] raises, that
    exception is the outcome of the block and the handle is left in
    place. *)
Theorem with_block_closes (body : M W unit) (s s1 : State W)
    (r1 : Result unit) :
  body s = (r1, s1) ->
  let h := handle (self s1) in
  (forall c w2,
     aa_close h (world s1) = (Ok c, w2) ->
     with_block body s
     = (r1, {| world := w2; calls := calls s1 ++ [call_close h];
               self := with_handle None (self s1) |}))
  /\ (forall e w2,
        aa_close h (world s1) = (Raise e, w2) ->
        with_block body s
        = (Raise e, {| world := w2; calls := calls s1 ++ [call_close h];
                       self := self s1 |})).
Proof.
  intros Hbody h. split.
  - intros c w2 Hc.
    unfold with_block, __enter__, __exit__, close, bind, ret, attr, api,
      assign. simpl. rewrite Hbody.
    destruct r1 as [[]|e]; simpl; fold h; rewrite Hc; reflexivity.
  - intros e w2 Hc.
    unfold with_block, __enter__, __exit__, close, bind, ret, attr, api,
      assign. simpl. rewrite Hbody.
    destruct r1 as [[]|e1]; simpl; fold h; rewrite Hc; reflexivity.
Qed.

End Lifecycle.

Section ShadowCache.

Context {C : Constants} {W : Type} {A : Api W}.

(** Splits on the answer of the next binding call, or on the next test. *)
Ltac split_answers :=
  repeat match goal with
         | |- context [aa_close ?h ?w] =>
             destruct (aa_close h w) as [[?|?] ?] eqn:?; simpl
         | |- context [aa_unique_id ?h ?w] =>
             destruct (aa_unique_id h w) as [[?|?] ?] eqn:?; simpl
         | |- context [aa_configure ?h ?v ?w] =>
             destruct (aa_configure h v w) as [[?|?] ?] eqn:?; simpl
         | |- context [aa_i2c_slave_set_response ?h ?d ?w] =>
             destruct (aa_i2c_slave_set_response h d w) as [[?|?] ?] eqn:?;
             simpl
         | |- context [aa_gpio_direction ?h ?m ?w] =>
             destruct (aa_gpio_direction h m w) as [[?|?] ?] eqn:?; simpl
         | |- context [aa_gpio_pullup ?h ?m ?w] =>
             destruct (aa_gpio_pullup h m w) as [[?|?] ?] eqn:?; simpl
         | |- context [aa_gpio_set ?h ?m ?w] =>
             destruct (aa_gpio_set h m w) as [[?|?] ?] eqn:?; simpl
         | |- context [aa_gpio_change ?h ?t ?w] =>
             destruct (aa_gpio_change h t w) as [[?|?] ?] eqn:?; simpl
         | |- context [match ?x with Some _ => _ | None => _ end] =>
             let E := fresh "E" in destruct x eqn:E; simpl
         | |- context [if ?b then _ else _] =>
             let E := fresh "E" in destruct b eqn:E; simpl
         end.

(** Unfolds an operation completely and splits on every answer and test. *)
Ltac run_through :=
  unfold run_op;
  try rewrite gpio_toggle_cases;
  try match goal with
      | |- context [if ?b then gpio_clear _ _ else _] => destruct b
      end;
  try rewrite gpio_set_cases; try rewrite gpio_clear_cases;
  unfold outcome, close, unique_id_str, unique_id, enable_i2c, enable_spi,
    enable_i2c_setter, enable_spi_setter, i2c_slave_response,
    i2c_slave_response_setter, configured_gpio_outputs,
    configured_gpio_outputs_setter, enabled_gpio_pullups,
    enabled_gpio_pullups_setter, gpio_get, gpio_poll;
  cbv zeta;
  unfold _interface_configuration, _raise_error_if_negative, void, bind, ret,
    raise, attr, assign, api; simpl;
  split_answers.

(** X11 - The getter of [i2c_slave_response] returns, without any binding
    call, the bytes of the last setter call that returned: [None] right
    after the constructor, the new bytes after a setter that returned, and
    what it returned before after a setter that raised. *)
Theorem slave_response_round_trip (s s1 : State W) (data : list Byte.byte)
    (res : Result unit) :
  i2c_slave_response_setter data s = (res, s1) ->
  (res = Ok tt -> i2c_slave_response s1 = (Ok (Some data), s1))
  /\ (forall e, res = Raise e ->
                i2c_slave_response s1 = (fst (i2c_slave_response s), s1))
  /\ (forall port s', new port s = (Ok tt, s') ->
                      i2c_slave_response s' = (Ok None, s')).
Proof.
  intros H. split; [|split].
  - intros ->. revert H. run_through; intros [= <-]; reflexivity.
  - intros e ->. revert H. run_through; intros [= <- <-]; reflexivity.
  - intros port s' Hnew.
    destruct (new_shadow_empty _ _ _ Hnew) as [_ [_ [_ E]]].
    unfold i2c_slave_response, attr. now rewrite E.
Qed.

(** X12 - After the setter of [configured_gpio_outputs] (or of
    [enabled_gpio_pullups]) has returned on a set of pins, with a set of pins
    in the cache before, the getter returns a list with exactly the pins that
    were set: the list that was passed when its bitmask differed from the
    cached one, and the list cached before, possibly in another order than
    the one passed, when the bitmasks were equal. *)
Theorem pins_setter_then_getter (HC : ConstantsOk) (s s1 : State W)
    (pins : list Z) :
  pin_set pins ->
  (pin_set (_configured_gpio_outputs (self s)) ->
   configured_gpio_outputs_setter pins s = (Ok tt, s1) ->
   exists l,
     configured_gpio_outputs s1 = (Ok l, s1)
     /\ (forall p, In p l <-> In p pins)
     /\ (Py.sum pins <> Py.sum (_configured_gpio_outputs (self s)) ->
         l = pins)
     /\ (Py.sum pins = Py.sum (_configured_gpio_outputs (self s)) ->
         l = _configured_gpio_outputs (self s)))
  /\ (pin_set (_enabled_gpio_pullups (self s)) ->
      enabled_gpio_pullups_setter pins s = (Ok tt, s1) ->
      exists l,
        enabled_gpio_pullups s1 = (Ok l, s1)
        /\ (forall p, In p l <-> In p pins)
        /\ (Py.sum pins <> Py.sum (_enabled_gpio_pullups (self s)) ->
            l = pins)
        /\ (Py.sum pins = Py.sum (_enabled_gpio_pullups (self s)) ->
            l = _enabled_gpio_pullups (self s))).
Proof.
  intros Hpins.
  assert (Hbits : forall l, pin_set l -> Forall single_bit l).
  { intros l [_ Hin]. rewrite Forall_forall in *. intros p Hp.
    pose proof (gpios_single_bit HC) as Hsb. rewrite Forall_forall in Hsb.
    apply Hsb, Hin, Hp. }
  assert (Hsame : forall cur, pin_set cur -> Py.sum pins = Py.sum cur ->
            forall p, In p cur <-> In p pins).
  { intros cur Hcur E p. rewrite !(pin_set_sum HC) in E by assumption.
    split; apply same_union_same_members; auto. }
  split; intros Hcur H.
  - exists (_configured_gpio_outputs (self s1)).
    split; [reflexivity|]. revert H.
    unfold configured_gpio_outputs_setter.
    unfold _raise_error_if_negative, bind, ret, raise, attr, assign, api.
    simpl.
    destruct (Z.eqb_spec (Py.sum pins)
                (Py.sum (_configured_gpio_outputs (self s)))) as [E|E].
    + intros [= <-]. split; [now apply Hsame|]. split; [tauto | auto].
    + destruct (aa_gpio_direction _ _ _) as [[r|e] w]; simpl;
        [destruct (r <? 0); simpl|]; intros [= <-]; simpl.
      split; [tauto|]. split; [auto | intros E'; contradiction].
  - exists (_enabled_gpio_pullups (self s1)).
    split; [reflexivity|]. revert H.
    unfold enabled_gpio_pullups_setter.
    unfold _raise_error_if_negative, bind, ret, raise, attr, assign, api.
    simpl.
    destruct (Z.eqb_spec (Py.sum pins)
                (Py.sum (_enabled_gpio_pullups (self s)))) as [E|E].
    + intros [= <-]. split; [now apply Hsame|]. split; [tauto | auto].
    + destruct (aa_gpio_pullup _ _ _) as [[r|e] w]; simpl;
        [destruct (r <? 0); simpl|]; intros [= <-]; simpl.
      split; [tauto|]. split; [auto | intros E'; contradiction].
Qed.

(** X13 - The list of outputs driven high never holds a pin twice: it is
    empty after the constructor, and every operation of the session keeps a
    duplicate-free list duplicate-free. *)
Theorem high_outputs_stay_distinct (s : State W) :
  (forall port s', new port s = (Ok tt, s') ->
                   NoDup (_high_gpio_outputs (self s')))
  /\ (forall op res s',
        NoDup (_high_gpio_outputs (self s)) ->
        run_op op s = (res, s') ->
        NoDup (_high_gpio_outputs (self s'))).
Proof.
  split.
  - intros port s' H. destruct (new_shadow_empty _ _ _ H) as [_ [-> _]].
    constructor.
  - intros op res s' Hnd.
    destruct op; run_through; intros [= <- <-]; simpl; try assumption.
    + match goal with
      | E : Py.remove _ _ = Some _ |- _ =>
          exact (proj1 (remove_NoDup _ _ _ Hnd E))
      end.
    + apply NoDup_app; [exact Hnd | repeat constructor; simpl; tauto|].
      intros x Hx [<-|[]].
      match goal with
      | E : Py.contains _ _ = false |- _ =>
          now apply contains_not_In in E
      end.
    + match goal with
      | E : Py.remove _ _ = Some _ |- _ =>
          exact (proj1 (remove_NoDup _ _ _ Hnd E))
      end.
    + apply NoDup_app; [exact Hnd | repeat constructor; simpl; tauto|].
      intros x Hx [<-|[]].
      match goal with
      | E : Py.contains _ _ = false |- _ =>
          now apply contains_not_In in E
      end.
Qed.

Lemma sum_with_one_more l x : Py.sum (l ++ [x]) = Py.sum l + x.
Proof.
  induction l as [|y l IH]; [reflexivity|].
  rewrite <- app_comm_cons, !sum_cons, IH. lia.
Qed.

Lemma remove_snoc x l : ~ In x l -> Py.remove x (l ++ [x]) = Some l.
Proof.
  induction l as [|y l IH]; simpl; intros H.
  - now rewrite Z.eqb_refl.
  - destruct (Z.eqb_spec y x) as [->|_]; [tauto|].
    rewrite IH by tauto. reflexivity.
Qed.

(** X14 - Driving a pin high that was low and then driving it low again,
    both calls returning, leaves the list of outputs driven high exactly as
    it was; the binding saw two [aa_gpio_set] calls, the first with the sum
    of the old bitmasks plus the pin, the second with the sum of the old
    bitmasks. *)
Theorem gpio_set_then_clear (s s1 s2 : State W) (output : Z) :
  Py.contains output (_high_gpio_outputs (self s)) = false ->
  gpio_set output s = (Ok tt, s1) ->
  gpio_clear output s1 = (Ok tt, s2) ->
  _high_gpio_outputs (self s2) = _high_gpio_outputs (self s)
  /\ calls s2
     = calls s
         ++ [call_gpio_set (handle (self s))
               (Py.sum (_high_gpio_outputs (self s)) + output);
             call_gpio_set (handle (self s))
               (Py.sum (_high_gpio_outputs (self s)))].
Proof.
  intros Hlow Hset Hclr.
  rewrite gpio_set_cases in Hset. cbv zeta in Hset. rewrite Hlow in Hset.
  unfold outcome in Hset.
  destruct (aa_gpio_set _ _ (world s)) as [[r|e] w1]; [|discriminate].
  destruct (r <? 0); [discriminate|]. injection Hset as <-.
  rewrite gpio_clear_cases in Hclr. cbv zeta in Hclr. simpl in Hclr.
  rewrite remove_snoc in Hclr by now apply contains_not_In.
  unfold outcome in Hclr. simpl in Hclr.
  destruct (aa_gpio_set _ _ w1) as [[r2|e] w2]; [|discriminate].
  destruct (r2 <? 0); [discriminate|]. injection Hclr as <-. simpl.
  split; [reflexivity|].
  rewrite <- app_assoc. simpl.
  now rewrite sum_with_one_more.
Qed.

Lemma union_app l1 l2 :
  bitmask_union (l1 ++ l2) = Z.lor (bitmask_union l1) (bitmask_union l2).
Proof.
  induction l1 as [|x l1 IH]; simpl; [reflexivity|].
  now rewrite IH, Z.lor_assoc.
Qed.

(** The union of a set of single bits without one of its members. *)
Lemma union_remove l r p :
  NoDup l -> Forall single_bit l -> Py.remove p l = Some r ->
  bitmask_union r = Z.ldiff (bitmask_union l) p.
Proof.
  intros Hnd Hsb Hr.
  assert (Hp : single_bit p).
  { rewrite Forall_forall in Hsb. apply Hsb. eapply remove_some_In; eauto. }
  assert (Hsr : Forall single_bit r).
  { rewrite Forall_forall in *. intros q Hq. apply Hsb.
    eapply remove_In; eauto. }
  destruct Hp as [k [Hk ->]].
  apply Z.bits_inj'. intros m Hm.
  rewrite Z.ldiff_spec, !union_has_bit by assumption.
  rewrite (contains_remove _ l r (2 ^ k) Hnd Hr).
  rewrite Z.pow2_bits_eqb by exact Hk. f_equal. f_equal.
  destruct (Z.eqb_spec k m) as [->|Hne].
  - apply Z.eqb_refl.
  - apply Z.eqb_neq. intros E. apply Hne. symmetry. now apply pow2_inj.
Qed.

(** X15 - The bitmask [gpio_set] and [gpio_clear] hand to [aa_gpio_set] is
    the union of the pins that are to be high: with a set of single-bit pins
    driven high, [gpio_set] of a pin that is low sends the old union with the
    bit of the pin set, and [gpio_clear] of a pin that is high sends the old
    union with that bit cleared. *)
Theorem gpio_masks_are_unions (s : State W) (output : Z) :
  let high := _high_gpio_outputs (self s) in
  let h := handle (self s) in
  distinct_bits high ->
  single_bit output ->
  (Py.contains output high = false ->
     calls (snd (gpio_set output s))
     = calls s ++ [call_gpio_set h (Z.lor (bitmask_union high) output)])
  /\ (Py.contains output high = true ->
      calls (snd (gpio_clear output s))
      = calls s ++ [call_gpio_set h (Z.ldiff (bitmask_union high) output)]).
Proof.
  intros high h [Hnd Hsb] Hout. split; intros Hc.
  - rewrite gpio_set_cases. cbv zeta. fold high. rewrite Hc.
    assert (E : Py.sum (high ++ [output])
                = Z.lor (bitmask_union high) output).
    { rewrite sum_is_union.
      - rewrite union_app. simpl. now rewrite Z.lor_0_r.
      - apply NoDup_app; [exact Hnd | repeat constructor; simpl; tauto|].
        intros x Hx [<-|[]]. now apply contains_not_In in Hc.
      - apply Forall_app. split; [exact Hsb | now constructor]. }
    rewrite E. unfold outcome. fold h.
    destruct (aa_gpio_set h _ (world s)) as [[r|e] w1];
      [destruct (r <? 0)|]; reflexivity.
  - rewrite gpio_clear_cases. cbv zeta. fold high.
    destruct (remove_present output high (proj1 (contains_In _ _) Hc))
      as [l Hl].
    rewrite Hl.
    assert (E : Py.sum l = Z.ldiff (bitmask_union high) output).
    { rewrite sum_is_union.
      - now apply union_remove.
      - exact (proj1 (remove_NoDup _ _ _ Hnd Hl)).
      - rewrite Forall_forall in *. intros q Hq. apply Hsb.
        eapply remove_In; eauto. }
    rewrite E. unfold outcome. fold h.
    destruct (aa_gpio_set h _ (world s)) as [[r|e] w1];
      [destruct (r <? 0)|]; reflexivity.
Qed.

(** X21 - The shadow writes are independent of each other: a write never
    touches the handle or a cache field other than its own - the setter of
    the configured outputs leaves the pins driven high alone, [gpio_set] and
    [gpio_clear] leave the configured outputs alone, and so on - whether it
    returns or raises. *)
Theorem shadow_writes_are_independent (wr : Write) (s s' : State W)
    (res : Result unit) :
  run_write wr s = (res, s') ->
  handle (self s') = handle (self s)
  /\ match wr with
     | WriteOutputs _ =>
         _high_gpio_outputs (self s') = _high_gpio_outputs (self s)
         /\ _enabled_gpio_pullups (self s') = _enabled_gpio_pullups (self s)
         /\ _i2c_slave_response (self s') = _i2c_slave_response (self s)
     | WritePullups _ =>
         _configured_gpio_outputs (self s')
         = _configured_gpio_outputs (self s)
         /\ _high_gpio_outputs (self s') = _high_gpio_outputs (self s)
         /\ _i2c_slave_response (self s') = _i2c_slave_response (self s)
     | WriteHigh _ | WriteLow _ =>
         _configured_gpio_outputs (self s')
         = _configured_gpio_outputs (self s)
         /\ _enabled_gpio_pullups (self s') = _enabled_gpio_pullups (self s)
         /\ _i2c_slave_response (self s') = _i2c_slave_response (self s)
     | WriteResponse _ =>
         _configured_gpio_outputs (self s')
         = _configured_gpio_outputs (self s)
         /\ _high_gpio_outputs (self s') = _high_gpio_outputs (self s)
         /\ _enabled_gpio_pullups (self s') = _enabled_gpio_pullups (self s)
     end.
Proof.
  destruct wr; unfold run_write; run_through; intros [= <- <-]; simpl; auto.
Qed.

Lemma gpio_poll_cases timeout s :
  gpio_poll timeout s =
    let c := call_gpio_change (handle (self s)) timeout in
    let after w' :=
      {| world := w'; calls := calls s ++ [c]; self := self s |} in
    match aa_gpio_change (handle (self s)) timeout (world s) with
    | (Ok bitmask, w') =>
        if bitmask <? 0
        then (Raise (IOError bitmask (aa_status_string bitmask)), after w')
        else (Ok (filter (fun pin => negb (Z.land bitmask pin =? 0)) gpios),
              after w')
    | (Raise e, w') => (Raise e, after w')
    end.
Proof.
  unfold gpio_poll, _raise_error_if_negative, bind, ret, raise, attr, api.
  cbv zeta. cbn [world calls self].
  destruct (aa_gpio_change (handle (self s)) timeout (world s))
    as [[r|e] w1]; [destruct (r <? 0)|]; reflexivity.
Qed.

(** X16 - [gpio_poll] returns the pins whose bit the binding reports, never
    a pin twice and never anything but the six pins; when the binding
    reports the union of a set of pins, it returns exactly the pins of that
    set, in the order MISO, MOSI, SCK, SCL, SDA, SS. *)
Theorem gpio_poll_decodes (HC : ConstantsOk) (s : State W) (timeout : Z) :
  (forall l s', gpio_poll timeout s = (Ok l, s') ->
                NoDup l /\ incl l gpios)
  /\ (forall high w',
        pin_set high ->
        aa_gpio_change (handle (self s)) timeout (world s)
        = (Ok (bitmask_union high), w') ->
        gpio_poll timeout s
        = (Ok (filter (fun pin => Py.contains pin high) gpios),
           {| world := w';
              calls := calls s ++ [call_gpio_change (handle (self s)) timeout];
              self := self s |})
        /\ forall pin,
             In pin (filter (fun pin => Py.contains pin high) gpios)
             <-> In pin high).
Proof.
  split.
  - intros l s'. rewrite gpio_poll_cases. cbv zeta.
    destruct (aa_gpio_change _ _ _) as [[r|e] w1]; [|discriminate].
    destruct (r <? 0); [discriminate|].
    intros H.
    assert (E : filter (fun pin => negb (Z.land r pin =? 0)) gpios = l)
      by (pose proof (f_equal fst H) as E; cbn [fst] in E; congruence).
    rewrite <- E. split.
    + apply NoDup_filter, (gpios_distinct HC).
    + intros x Hx. now apply filter_In in Hx.
  - intros high w' [Hnd Hin] Hans.
    assert (Hsb : Forall single_bit high).
    { rewrite Forall_forall in *. intros p Hp.
      pose proof (gpios_single_bit HC) as H. rewrite Forall_forall in H.
      apply H, Hin, Hp. }
    split.
    + rewrite gpio_poll_cases. cbv zeta. rewrite Hans.
      pose proof (union_nonneg high Hsb).
      destruct (Z.ltb_spec (bitmask_union high) 0); [lia|].
      rewrite filter_union; [reflexivity | apply (gpios_single_bit HC)
                             | exact Hsb].
    + intros pin. rewrite filter_In, contains_In.
      rewrite Forall_forall in Hin. split; [tauto|]. auto.
Qed.

End ShadowCache.

Section Transfers.

Context {C : Constants} {C2 : MoreConstants} {W : Type} {A : Api W}
  {A2 : MoreApi W}.

(** X17 - [status_string] always answers with a name that starts with
    [I2C_STATUS_]; when some global with such a name has the value [code],
    the name answered is one of them, so that looking the name up gives
    [code] back; when none has, the answer is
    [I2C_STATUS_UNKNOWN_STATUS]. *)
Theorem status_string_reverse_lookup (code : Z) :
  is_status_name (status_string code)
  /\ ((exists k, is_status_name k /\ In (k, Some code) module_globals) ->
      In (status_string code, Some code) module_globals)
  /\ ((forall k, is_status_name k -> ~ In (k, Some code) module_globals) ->
      status_string code = "I2C_STATUS_UNKNOWN_STATUS").
Proof.
  unfold status_string, is_status_name.
  destruct (find _ module_globals) as [[k v]|] eqn:E.
  - apply find_some in E as [Hin Hf]. simpl in Hf.
    apply andb_true_iff in Hf as [Hp Hv].
    destruct v as [v|]; [|discriminate]. apply Z.eqb_eq in Hv. subst v.
    split; [exact Hp|]. split; [intros _; exact Hin|].
    intros Hnone. exfalso. exact (Hnone k Hp Hin).
  - split; [reflexivity|]. split; [|reflexivity].
    intros [k [Hp Hin]].
    pose proof (find_none _ _ E _ Hin) as Hf. simpl in Hf.
    rewrite Hp, Z.eqb_refl in Hf. discriminate.
Qed.

Lemma raise_i2c_cases code (s : State W) :
  _raise_i2c_status_code_error_if_failure code s
  = if code =? I2C_STATUS_OK then (Ok tt, s)
    else (Raise (IOError code (status_string code)), s).
Proof.
  unfold _raise_i2c_status_code_error_if_failure.
  destruct (code =? I2C_STATUS_OK); reflexivity.
Qed.

Lemma del_from_prefix {T} n (l : list T) :
  exists rest, l = PySeq.del_from n l ++ rest.
Proof.
  unfold PySeq.del_from. destruct (n <? 0);
    eexists; symmetry; apply firstn_skipn.
Qed.

(** X18 - [i2c_master_read] hands the binding a buffer of [length] zero
    bytes (none when [length] is negative).  A status other than
    [I2C_STATUS_OK] raises the [IOError] of that status, whatever was read.
    Otherwise the result is a prefix of the buffer that came back: its first
    [rx_len] bytes, the whole buffer when it is shorter than that. *)
Theorem i2c_master_read_returns_prefix (s : State W) (addr length flags : Z)
    (status rx_len : Z) (data : list Byte.byte) (w' : W) :
  aa_i2c_read_ext (handle (self s)) addr flags (PySeq.zero_bytes length)
    (world s) = (Ok (status, data, rx_len), w') ->
  let s' := {| world := w'; calls := calls s; self := self s |} in
  List.length (PySeq.zero_bytes length) = Z.to_nat length
  /\ (status <> I2C_STATUS_OK ->
      i2c_master_read addr length flags s
      = (Raise (IOError status (status_string status)), s'))
  /\ (status = I2C_STATUS_OK ->
      exists out rest,
        i2c_master_read addr length flags s = (Ok out, s')
        /\ data = out ++ rest
        /\ (0 <= rx_len ->
            List.length out = Nat.min (Z.to_nat rx_len) (List.length data))).
Proof.
  intros H s'. split; [apply repeat_length|].
  assert (Hrun : i2c_master_read addr length flags s
            = if status =? I2C_STATUS_OK
              then (Ok (PySeq.del_from rx_len data), s')
              else (Raise (IOError status (status_string status)), s')).
  { unfold i2c_master_read, bind, attr, api_more, ret. cbv zeta.
    cbn [world calls self]. rewrite H. rewrite raise_i2c_cases.
    destruct (status =? I2C_STATUS_OK); reflexivity. }
  split.
  - intros Hs. rewrite Hrun. apply Z.eqb_neq in Hs. now rewrite Hs.
  - intros ->. rewrite Hrun, Z.eqb_refl.
    destruct (del_from_prefix rx_len data) as [rest Hrest].
    exists (PySeq.del_from rx_len data), rest.
    split; [reflexivity|]. split; [exact Hrest|].
    intros Hn. unfold PySeq.del_from.
    destruct (Z.ltb_spec rx_len 0); [lia|]. apply length_firstn.
Qed.

(** X19 - [i2c_master_write_read] writes with [I2C_NO_STOP] and then reads
    with [I2C_NO_FLAGS]: when the write is answered with a status other than
    [I2C_STATUS_OK] the [IOError] of that status is raised and the binding is
    not asked to read; otherwise the outcome is that of the read.  The number
    of bytes the write reports as written plays no part: a short write is
    not an error. *)
Theorem write_read_stops_at_failed_write (s : State W) (i2c_address : Z)
    (data : list Byte.byte) (length status num_written : Z) (w1 : W) :
  aa_i2c_write_ext (handle (self s)) i2c_address I2C_NO_STOP data (world s)
  = (Ok (status, num_written), w1) ->
  let s1 := {| world := w1; calls := calls s; self := self s |} in
  (status <> I2C_STATUS_OK ->
     i2c_master_write_read i2c_address data length s
     = (Raise (IOError status (status_string status)), s1))
  /\ (status = I2C_STATUS_OK ->
      i2c_master_write i2c_address data I2C_NO_STOP s = (Ok tt, s1)
      /\ i2c_master_write_read i2c_address data length s
         = i2c_master_read i2c_address length I2C_NO_FLAGS s1).
Proof.
  intros H s1.
  assert (Hw : i2c_master_write i2c_address data I2C_NO_STOP s
            = if status =? I2C_STATUS_OK then (Ok tt, s1)
              else (Raise (IOError status (status_string status)), s1)).
  { unfold i2c_master_write, bind, attr, api_more. cbn [world calls self].
    rewrite H. apply raise_i2c_cases. }
  split.
  - intros Hs. unfold i2c_master_write_read, bind. rewrite Hw.
    apply Z.eqb_neq in Hs. now rewrite Hs.
  - intros ->. rewrite Z.eqb_refl in Hw. split; [exact Hw|].
    unfold i2c_master_write_read, bind. now rewrite Hw.
Qed.

Lemma poll_cases timeout s :
  poll timeout s =
    let t := match timeout with
             | None => -1
             | Some t => t
             end in
    let after w' := {| world := w'; calls := calls s; self := self s |} in
    match aa_async_poll (handle (self s)) t (world s) with
    | (Ok r, w') =>
        if r <? 0 then (Raise (IOError r (aa_status_string r)), after w')
        else (Ok (filter (fun event => negb (Z.land r event =? 0))
                    poll_events), after w')
    | (Raise e, w') => (Raise e, after w')
    end.
Proof.
  unfold poll, _raise_error_if_negative, bind, ret, raise, attr, api_more.
  cbv zeta. cbn [world calls self].
  destruct (aa_async_poll _ _ _) as [[r|e] w1]; [destruct (r <? 0)|];
    reflexivity.
Qed.

(** X20 - [poll]: no timeout is the timeout [-1]; a negative answer of the
    binding raises its [IOError]; otherwise the result lists, in the order
    read, write, SPI, monitor and without repetition, the events whose bit the
    answer has, so that - the four events being distinct single bits - the
    union of a set of events is answered by exactly the events of that
    set, and the answer 0 by the empty list. *)
Theorem poll_decodes (s : State W) (timeout : option Z) :
  distinct_bits poll_events ->
  let t := match timeout with
           | None => -1
           | Some t => t
           end in
  let after w' := {| world := w'; calls := calls s; self := self s |} in
  poll None s = poll (Some (-1)) s
  /\ (forall r w', aa_async_poll (handle (self s)) t (world s) = (Ok r, w') ->
                   r < 0 ->
                   poll timeout s
                   = (Raise (IOError r (aa_status_string r)), after w'))
  /\ (forall l s', poll timeout s = (Ok l, s') ->
                   NoDup l /\ incl l poll_events)
  /\ (forall events w',
        incl events poll_events ->
        aa_async_poll (handle (self s)) t (world s)
        = (Ok (bitmask_union events), w') ->
        poll timeout s
        = (Ok (filter (fun e => Py.contains e events) poll_events), after w')
        /\ (events = [] ->
            filter (fun e => Py.contains e events) poll_events = [])
        /\ forall e,
             In e (filter (fun e => Py.contains e events) poll_events)
             <-> In e events).
Proof.
  intros [Hnd Hsb] t after. split; [reflexivity|]. split; [|split].
  - intros r w' H Hr. rewrite poll_cases. cbv zeta. fold t. rewrite H.
    destruct (Z.ltb_spec r 0); [reflexivity | lia].
  - intros l s'. rewrite poll_cases. cbv zeta.
    destruct (aa_async_poll _ _ _) as [[r|e] w1]; [|discriminate].
    destruct (r <? 0); [discriminate|].
    intros H.
    assert (E : filter (fun event => negb (Z.land r event =? 0)) poll_events
                = l)
      by (pose proof (f_equal fst H) as E; cbn [fst] in E; congruence).
    rewrite <- E. split.
    + apply NoDup_filter, Hnd.
    + intros x Hx. now apply filter_In in Hx.
  - intros events w' Hin H.
    assert (Hev : Forall single_bit events).
    { rewrite Forall_forall in *. intros e He. apply Hsb, Hin, He. }
    split; [|split].
    + rewrite poll_cases. cbv zeta. fold t. rewrite H.
      pose proof (union_nonneg events Hev).
      destruct (Z.ltb_spec (bitmask_union events) 0); [lia|].
      rewrite filter_union by assumption. reflexivity.
    + intros ->. clear. induction poll_events; [reflexivity | assumption].
    + intros e. rewrite filter_In, contains_In. split; [tauto|]. auto.
Qed.

End Transfers.

(* ===================================================================== *)
(** * Further concrete runs on the simulated adapter *)
(* ===================================================================== *)

Section MoreRuns.

Import Sim SimMore.

Lemma port_not_free_single_bit : single_bit PORT_NOT_FREE.
Proof. exists 15. split; [lia | reflexivity]. Qed.

Lemma poll_events_distinct : distinct_bits poll_events.
Proof.
  split.
  - repeat constructor; simpl; intuition discriminate.
  - repeat constructor; [exists 0 | exists 1 | exists 2 | exists 3];
      (split; [lia | reflexivity]).
Qed.

Lemma version_str_injective_witness :
  0 <= 257 /\ 0 <= 513
  /\ _to_version_str 257 = "1.01"
  /\ (_to_version_str 257 = _to_version_str 513 -> 257 = 513).
Proof.
  assert (H1 : 0 <= 257) by lia. assert (H2 : 0 <= 513) by lia.
  split; [exact H1|]. split; [exact H2|].
  exact (version_str_injective 257 513 H1 H2).
Defined.

Lemma find_devices_counts_witness :
  aa_find_devices (world (start empty_bench)) = (Ok 0, empty_bench)
  /\ find_devices (start empty_bench)
     = (Ok [], {| world := empty_bench; calls := [call_find_devices];
                  self := blank |}).
Proof.
  assert (H : aa_find_devices (world (start empty_bench))
              = (Ok 0, empty_bench)) by reflexivity.
  split; [exact H|].
  exact (proj1 (proj2 (find_devices_counts (start empty_bench) 0 empty_bench
                         H)) eq_refl).
Defined.

Lemma find_devices_decodes_witness :
  single_bit PORT_NOT_FREE
  /\ aa_find_devices (world (start busy_bench)) = (Ok 2, busy_bench)
  /\ 0 < 2
  /\ aa_find_devices_ext 2 busy_bench
     = (Ok (2, [32770; 1], [1111222222; 5]), busy_bench)
  /\ exists devices,
       find_devices (start busy_bench)
       = (Ok devices,
          {| world := busy_bench;
             calls := [call_find_devices; call_find_devices_ext 2];
             self := blank |})
       /\ List.length devices = 2%nat.
Proof.
  assert (H1 : aa_find_devices (world (start busy_bench))
               = (Ok 2, busy_bench)) by reflexivity.
  assert (H2 : 0 < 2) by lia.
  assert (H3 : aa_find_devices_ext 2 busy_bench
               = (Ok (2, [32770; 1], [1111222222; 5]), busy_bench))
    by reflexivity.
  split; [exact port_not_free_single_bit|]. split; [exact H1|].
  split; [exact H2|]. split; [exact H3|].
  destruct (find_devices_decodes (start busy_bench) 2 2 [32770; 1]
              [1111222222; 5] busy_bench busy_bench
              port_not_free_single_bit H1 H2 H3 H2) as [devices [K1 [K2 _]]].
  exists devices. split; [exact K1 | exact K2].
Defined.

Lemma open_by_serial_number_succeeds_witness :
  find_devices (start bench) = (Ok ([] ++ swapped_device :: []), bench_enumerated)
  /\ (forall x, In x [] -> dev_serial_number x <> "1234-567890")
  /\ dev_serial_number swapped_device = "1234-567890"
  /\ new (dev_port swapped_device) bench_enumerated = (Ok tt, bench_constructed)
  /\ aa_unique_id (handle (self bench_constructed)) (world bench_constructed)
     = (Ok 1234567890, world bench_constructed)
  /\ _unique_id_str 1234567890 = "1234-567890"
  /\ exists l,
       open None (Some "1234-567890") (start bench)
       = (Ok tt, {| world := world bench_constructed; calls := l;
                    self := self bench_constructed |})
       /\ filter is_close l = [].
Proof.
  assert (H1 : find_devices (start bench)
               = (Ok ([] ++ swapped_device :: []), bench_enumerated))
    by reflexivity.
  assert (H2 : forall x : Device,
            In x [] -> dev_serial_number x <> "1234-567890")
    by (intros x []).
  assert (H3 : dev_serial_number swapped_device = "1234-567890")
    by reflexivity.
  assert (H4 : new (dev_port swapped_device) bench_enumerated
               = (Ok tt, bench_constructed)) by reflexivity.
  assert (H5 : aa_unique_id (handle (self bench_constructed))
                 (world bench_constructed)
               = (Ok 1234567890, world bench_constructed)) by reflexivity.
  assert (H6 : _unique_id_str 1234567890 = "1234-567890") by reflexivity.
  repeat (split; [assumption|]).
  destruct (open_by_serial_number_succeeds (start bench) bench_enumerated
              bench_constructed None "1234-567890" [] [] swapped_device
              1234567890 (world bench_constructed) H1 H2 H3 H4 H5 H6)
    as [l [K1 [_ [K3 _]]]].
  exists l. split; [exact K1 | exact K3].
Defined.

Lemma serial_scan_selects_by_id_witness :
  0 <= 7 < 2 ^ 32
  /\ Forall (fun pu : Z * Z => 0 <= snd pu < 2 ^ 32) [(0, 5); (1, 7)]
  /\ [(0, 5); (1, 7)] = [(0, 5)] ++ (1, 7) :: []
  /\ Forall (fun pu : Z * Z => snd pu <> 7) [(0, 5)]
  /\ scan (map (fun pu => device_of (fst pu) (snd pu)) [(0, 5); (1, 7)])
       (_unique_id_str 7) None
     = (true, Some (device_of 1 7)).
Proof.
  assert (H1 : 0 <= 7 < 2 ^ 32) by lia.
  assert (H2 : Forall (fun pu : Z * Z => 0 <= snd pu < 2 ^ 32)
                 [(0, 5); (1, 7)])
    by (repeat constructor; simpl; lia).
  assert (H3 : Forall (fun pu : Z * Z => snd pu <> 7) [(0, 5)])
    by (repeat constructor; simpl; lia).
  split; [exact H1|]. split; [exact H2|]. split; [reflexivity|].
  split; [exact H3|].
  exact (proj1 (serial_scan_selects_by_id [(0, 5); (1, 7)] 7 H1 H2)
           [(0, 5)] 1 [] eq_refl H3).
Defined.

Lemma constructor_outcome_witness :
  aa_open_ext 0 (world (start bench))
  = (Ok (1, {| version := no_requirements |}), bench)
  /\ 0 <= 1
  /\ fw_req_by_sw no_requirements <= firmware no_requirements
  /\ sw_req_by_fw no_requirements <= software no_requirements
  /\ aa_configure (Some 1) CONFIG_SPI_I2C bench = (Ok 3, world opened)
  /\ 0 <= 3
  /\ new 0 (start bench) = (Ok tt, opened).
Proof.
  assert (H1 : aa_open_ext 0 (world (start bench))
               = (Ok (1, {| version := no_requirements |}), bench))
    by reflexivity.
  assert (H2 : 0 <= 1) by lia.
  assert (H3 : fw_req_by_sw no_requirements <= firmware no_requirements)
    by (simpl; lia).
  assert (H4 : sw_req_by_fw no_requirements <= software no_requirements)
    by (simpl; lia).
  assert (H5 : aa_configure (Some 1) CONFIG_SPI_I2C bench
               = (Ok 3, world opened)) by reflexivity.
  assert (H6 : 0 <= 3) by lia.
  repeat (split; [assumption|]).
  exact (proj1 (proj2 (proj2 (constructor_outcome (start bench) 0 1
                                {| version := no_requirements |} bench H1)
                         H2 H3 H4 3 (world opened) H5) H6)).
Defined.

Lemma open_enables_both_interfaces_witness :
  new 0 (start bench) = (Ok tt, opened)
  /\ config (world opened) = CONFIG_SPI_I2C
  /\ enable_i2c opened
     = (Ok true, {| world := world opened;
                    calls := calls opened
                               ++ [call_configure (Some 1) CONFIG_QUERY];
                    self := self opened |}).
Proof.
  assert (H : new 0 (start bench) = (Ok tt, opened)) by reflexivity.
  split; [exact H|].
  split; [|reflexivity].
  exact (proj1 (open_enables_both_interfaces aardvark_constants_ok config
                  sim_config_register 0 (start bench) opened H)).
Defined.


Lemma with_block_closes_witness :
  gpio_set GPIO_SS opened = (Ok tt, ss_raised)
  /\ aa_close (handle (self ss_raised)) (world ss_raised)
     = (Ok 1, world ss_raised)
  /\ with_block (gpio_set GPIO_SS) opened
     = (Ok tt,
        {| world := world ss_raised;
           calls := calls ss_raised ++ [call_close (Some 1)];
           self := with_handle None (self ss_raised) |}).
Proof.
  assert (H1 : gpio_set GPIO_SS opened = (Ok tt, ss_raised)) by reflexivity.
  assert (H2 : aa_close (handle (self ss_raised)) (world ss_raised)
               = (Ok 1, world ss_raised)) by reflexivity.
  split; [exact H1|]. split; [exact H2|].
  exact (proj1 (with_block_closes (gpio_set GPIO_SS) opened ss_raised (Ok tt)
                  H1) 1 (world ss_raised) H2).
Defined.

Lemma slave_response_round_trip_witness :
  i2c_slave_response_setter [Byte.x01; Byte.x02] opened
  = (Ok tt, with_response)
  /\ i2c_slave_response with_response
     = (Ok (Some [Byte.x01; Byte.x02]), with_response).
Proof.
  assert (H : i2c_slave_response_setter [Byte.x01; Byte.x02] opened
              = (Ok tt, with_response)) by reflexivity.
  split; [exact H|].
  exact (proj1 (slave_response_round_trip opened with_response
                  [Byte.x01; Byte.x02] (Ok tt) H) eq_refl).
Defined.

Lemma pins_setter_then_getter_witness :
  pin_set [GPIO_SCL; GPIO_SCK]
  /\ pin_set (_configured_gpio_outputs (self two_outputs))
  /\ configured_gpio_outputs_setter [GPIO_SCL; GPIO_SCK] two_outputs
     = (Ok tt, two_outputs)
  /\ exists l,
       configured_gpio_outputs two_outputs = (Ok l, two_outputs)
       /\ (forall p, In p l <-> In p [GPIO_SCL; GPIO_SCK])
       /\ (Py.sum [GPIO_SCL; GPIO_SCK]
           = Py.sum (_configured_gpio_outputs (self two_outputs)) ->
           l = [GPIO_SCK; GPIO_SCL]).
Proof.
  assert (H1 : pin_set [GPIO_SCL; GPIO_SCK])
    by (split; repeat constructor; simpl; intuition discriminate).
  assert (H2 : pin_set (_configured_gpio_outputs (self two_outputs)))
    by (split; repeat constructor; simpl; intuition discriminate).
  assert (H3 : configured_gpio_outputs_setter [GPIO_SCL; GPIO_SCK] two_outputs
               = (Ok tt, two_outputs)) by reflexivity.
  split; [exact H1|]. split; [exact H2|]. split; [exact H3|].
  destruct (proj1 (pins_setter_then_getter aardvark_constants_ok two_outputs
                     two_outputs [GPIO_SCL; GPIO_SCK] H1) H2 H3)
    as [l [K1 [K2 [_ K4]]]].
  exists l. split; [exact K1|]. split; [exact K2 | exact K4].
Defined.

Lemma high_outputs_stay_distinct_witness :
  NoDup (_high_gpio_outputs (self two_outputs))
  /\ run_op (OpGpioSet GPIO_SCK) two_outputs = (Ok tt, sck_raised)
  /\ NoDup (_high_gpio_outputs (self sck_raised)).
Proof.
  assert (H1 : NoDup (_high_gpio_outputs (self two_outputs)))
    by constructor.
  assert (H2 : run_op (OpGpioSet GPIO_SCK) two_outputs = (Ok tt, sck_raised))
    by reflexivity.
  split; [exact H1|]. split; [exact H2|].
  exact (proj2 (high_outputs_stay_distinct two_outputs) (OpGpioSet GPIO_SCK)
           (Ok tt) sck_raised H1 H2).
Defined.

Lemma gpio_set_then_clear_witness :
  Py.contains GPIO_SCK (_high_gpio_outputs (self two_outputs)) = false
  /\ gpio_set GPIO_SCK two_outputs = (Ok tt, sck_raised)
  /\ gpio_clear GPIO_SCK sck_raised = (Ok tt, sck_lowered)
  /\ _high_gpio_outputs (self sck_lowered)
     = _high_gpio_outputs (self two_outputs)
  /\ calls sck_lowered
     = [call_gpio_set (Some 1) 8; call_gpio_set (Some 1) 0].
Proof.
  assert (H1 : Py.contains GPIO_SCK (_high_gpio_outputs (self two_outputs))
               = false) by reflexivity.
  assert (H2 : gpio_set GPIO_SCK two_outputs = (Ok tt, sck_raised))
    by reflexivity.
  assert (H3 : gpio_clear GPIO_SCK sck_raised = (Ok tt, sck_lowered))
    by reflexivity.
  split; [exact H1|]. split; [exact H2|]. split; [exact H3|].
  exact (gpio_set_then_clear two_outputs sck_raised sck_lowered GPIO_SCK
           H1 H2 H3).
Defined.

Lemma gpio_masks_are_unions_witness :
  distinct_bits (_high_gpio_outputs (self scl_ss_high))
  /\ single_bit GPIO_SS
  /\ Py.contains GPIO_SS (_high_gpio_outputs (self scl_ss_high)) = true
  /\ calls (snd (gpio_clear GPIO_SS scl_ss_high))
     = [call_gpio_set (Some 1) (Z.ldiff 33 32)].
Proof.
  assert (H1 : distinct_bits (_high_gpio_outputs (self scl_ss_high))).
  { split.
    - repeat constructor; simpl; intuition discriminate.
    - repeat constructor; [exists 0 | exists 5];
        (split; [lia | reflexivity]). }
  assert (H2 : single_bit GPIO_SS)
    by (exists 5; split; [lia | reflexivity]).
  assert (H3 : Py.contains GPIO_SS (_high_gpio_outputs (self scl_ss_high))
               = true) by reflexivity.
  split; [exact H1|]. split; [exact H2|]. split; [exact H3|].
  exact (proj2 (gpio_masks_are_unions scl_ss_high GPIO_SS H1 H2) H3).
Defined.

Lemma shadow_writes_are_independent_witness :
  run_write (WriteHigh GPIO_SCK) two_outputs = (Ok tt, sck_raised)
  /\ handle (self sck_raised) = handle (self two_outputs)
  /\ _configured_gpio_outputs (self sck_raised)
     = _configured_gpio_outputs (self two_outputs).
Proof.
  assert (H : run_write (WriteHigh GPIO_SCK) two_outputs = (Ok tt, sck_raised))
    by reflexivity.
  split; [exact H|].
  destruct (shadow_writes_are_independent (WriteHigh GPIO_SCK) two_outputs
              sck_raised (Ok tt) H) as [K1 [K2 _]].
  split; [exact K1 | exact K2].
Defined.

Lemma gpio_poll_decodes_witness :
  pin_set [GPIO_SS; GPIO_SDA]
  /\ aa_gpio_change (handle (self two_outputs)) 42 (world two_outputs)
     = (Ok (bitmask_union [GPIO_SS; GPIO_SDA]), bench)
  /\ gpio_poll 42 two_outputs
     = (Ok [GPIO_SDA; GPIO_SS],
        {| world := bench; calls := [call_gpio_change (Some 1) 42];
           self := self two_outputs |}).
Proof.
  assert (H1 : pin_set [GPIO_SS; GPIO_SDA])
    by (split; repeat constructor; simpl; intuition discriminate).
  assert (H2 : aa_gpio_change (handle (self two_outputs)) 42
                 (world two_outputs)
               = (Ok (bitmask_union [GPIO_SS; GPIO_SDA]), bench))
    by reflexivity.
  split; [exact H1|]. split; [exact H2|].
  exact (proj1 (proj2 (gpio_poll_decodes aardvark_constants_ok two_outputs 42)
                  [GPIO_SS; GPIO_SDA] bench H1 H2)).
Defined.

Lemma status_string_reverse_lookup_witness :
  (exists k, is_status_name k /\ In (k, Some 3) module_globals)
  /\ status_string 3 = "I2C_STATUS_SLA_NACK"
  /\ In (status_string 3, Some 3) module_globals.
Proof.
  assert (H : exists k, is_status_name k /\ In (k, Some 3) module_globals).
  { exists "I2C_STATUS_SLA_NACK". split; [reflexivity|]. simpl. tauto. }
  split; [exact H|]. split; [reflexivity|].
  exact (proj1 (proj2 (status_string_reverse_lookup 3)) H).
Defined.

Lemma i2c_master_read_returns_prefix_witness :
  aa_i2c_read_ext (handle (self opened)) 80 0 (PySeq.zero_bytes 4)
    (world opened)
  = (Ok (0, [Byte.x2a; Byte.x2a; Byte.x2a; Byte.x2a], 3), world opened)
  /\ 0 = I2C_STATUS_OK
  /\ 0 <= 3
  /\ exists out rest,
       i2c_master_read 80 4 0 opened = (Ok out, opened)
       /\ [Byte.x2a; Byte.x2a; Byte.x2a; Byte.x2a] = out ++ rest
       /\ List.length out = 3%nat.
Proof.
  assert (H1 : aa_i2c_read_ext (handle (self opened)) 80 0
                 (PySeq.zero_bytes 4) (world opened)
               = (Ok (0, [Byte.x2a; Byte.x2a; Byte.x2a; Byte.x2a], 3),
                  world opened)) by reflexivity.
  assert (H2 : 0 = I2C_STATUS_OK) by reflexivity.
  assert (H3 : 0 <= 3) by lia.
  split; [exact H1|]. split; [exact H2|]. split; [exact H3|].
  destruct (proj2 (proj2 (i2c_master_read_returns_prefix opened 80 4 0 0 3
                            [Byte.x2a; Byte.x2a; Byte.x2a; Byte.x2a]
                            (world opened) H1)) H2)
    as [out [rest [K1 [K2 K3]]]].
  exists out, rest. split; [exact K1|]. split; [exact K2 | exact (K3 H3)].
Defined.

Lemma write_read_stops_at_failed_write_witness :
  aa_i2c_write_ext (handle (self two_outputs_faulty)) 80 I2C_NO_STOP
    [Byte.x00] (world two_outputs_faulty)
  = (Ok (3, 1), faulty)
  /\ 3 <> I2C_STATUS_OK
  /\ i2c_master_write_read 80 [Byte.x00] 2 two_outputs_faulty
     = (Raise (IOError 3 "I2C_STATUS_SLA_NACK"), two_outputs_faulty).
Proof.
  assert (H1 : aa_i2c_write_ext (handle (self two_outputs_faulty)) 80
                 I2C_NO_STOP [Byte.x00] (world two_outputs_faulty)
               = (Ok (3, 1), faulty)) by reflexivity.
  assert (H2 : 3 <> I2C_STATUS_OK) by discriminate.
  split; [exact H1|]. split; [exact H2|].
  exact (proj1 (write_read_stops_at_failed_write two_outputs_faulty 80
                  [Byte.x00] 2 3 1 faulty H1) H2).
Defined.

Lemma poll_decodes_witness :
  distinct_bits poll_events
  /\ incl [POLL_SPI; POLL_I2C_READ] poll_events
  /\ aa_async_poll (handle (self events_pending)) (-1) (world events_pending)
     = (Ok (bitmask_union [POLL_SPI; POLL_I2C_READ]), world events_pending)
  /\ poll None events_pending
     = (Ok [POLL_I2C_READ; POLL_SPI], events_pending).
Proof.
  assert (H1 : incl [POLL_SPI; POLL_I2C_READ] poll_events)
    by (intros e [<-|[<-|[]]]; simpl; tauto).
  assert (H2 : aa_async_poll (handle (self events_pending)) (-1)
                 (world events_pending)
               = (Ok (bitmask_union [POLL_SPI; POLL_I2C_READ]),
                  world events_pending)) by reflexivity.
  split; [exact poll_events_distinct|]. split; [exact H1|].
  split; [exact H2|].
  exact (proj1 (proj2 (proj2 (proj2 (poll_decodes events_pending None
                                        poll_events_distinct)))
                  [POLL_SPI; POLL_I2C_READ] (world events_pending) H1 H2)).
Defined.

End MoreRuns.
